(** * Hope Bridge: the funding ledger updater

    A shallow embedding of the donation-settlement logic of the Hope Bridge
    schema (supabase/migrations/20251204115400_create_hope_bridge_schema.sql)
    and of the donation modal that writes donation rows (DonationModal,
    handleDonate).

    Conventions.
    - A [decimal(12, 2)] column holds an integer number of hundredths: the
      value 60.00 is [6000].  A value fits the column when its absolute value
      is below 10^10 units, that is 10^12 hundredths.
    - A nullable column is an [option]; SQL comparisons on it are
      three-valued ([option bool], [None] being NULL).
    - A table with a primary key [id] is a finite map from the key to the
      remaining columns of the row.
    - A statement either succeeds with a new database or raises an SQL error,
      in which case nothing it did is kept. *)

From Stdlib Require Import ZArith QArith.
From stdpp Require Import gmap strings.

Local Open Scope Z_scope.

(** ** Column types *)

Abbreviation uuid := N (only parsing).
Abbreviation timestamptz := Z (only parsing).
Abbreviation decimal := Z (only parsing).

(** CREATE TYPE project_status AS ENUM (...) *)
Inductive project_status :=
  | draft | pending_review | active | fully_funded | completed | cancelled.

(** CREATE TYPE donation_status AS ENUM ('pending', 'completed', 'refunded') *)
Inductive donation_status := d_pending | d_completed | d_refunded.

#[global] Instance project_status_eq_dec : EqDecision project_status.
Proof. solve_decision. Defined.

#[global] Instance donation_status_eq_dec : EqDecision donation_status.
Proof. solve_decision. Defined.

(** A value can be stored in a [decimal(12, 2)] column. *)
Definition decimal_fits (x : decimal) : bool := Z.abs x <? 10 ^ 12.

Definition hundredths (units : Z) : decimal := units * 100.

(** ** SQL errors and results *)

Inductive sql_error :=
  | numeric_value_out_of_range
  | row_security_violation
  | not_null_violation
  | check_violation
  | unique_violation
  | foreign_key_violation.

Inductive result (A : Type) :=
  | Ok (a : A)
  | Err (e : sql_error).
Arguments Ok {A} a.
Arguments Err {A} e.

Definition bind {A B} (r : result A) (k : A -> result B) : result B :=
  match r with
  | Ok a => k a
  | Err e => Err e
  end.

Definition require (c : bool) (e : sql_error) : result unit :=
  if c then Ok tt else Err e.

Notation "x <~ r ;; k" := (bind r (fun x => k))
  (at level 100, r at next level, right associativity).
Notation "'ensure' c 'else' e ;; k" := (bind (require c e) (fun _ => k))
  (at level 100, c at level 9, e at level 9, right associativity).

(** ** Three-valued logic *)

Definition sql_eq {A} `{EqDecision A} (a b : option A) : option bool :=
  match a, b with
  | Some x, Some y => Some (bool_decide (x = y))
  | _, _ => None
  end.

Definition sql_ne {A} `{EqDecision A} (a b : option A) : option bool :=
  negb <$> sql_eq a b.

Definition sql_and (a b : option bool) : option bool :=
  match a, b with
  | Some false, _ | _, Some false => Some false
  | Some true, Some true => Some true
  | _, _ => None
  end.

Definition sql_add (a b : option Z) : option Z :=
  match a, b with
  | Some x, Some y => Some (x + y)
  | _, _ => None
  end.

Definition sql_ge (a b : option Z) : option bool :=
  match a, b with
  | Some x, Some y => Some (y <=? x)
  | _, _ => None
  end.

(** IF and CASE WHEN take their branch only when the condition is TRUE. *)
Definition holds (c : option bool) : bool :=
  match c with
  | Some true => true
  | _ => false
  end.

(** A CHECK constraint is violated only when its expression is FALSE. *)
Definition check_passes (c : option bool) : bool :=
  match c with
  | Some false => false
  | _ => true
  end.

(** ** Rows *)

Module Project.
(** CREATE TABLE projects, without the key column [id]. *)
Record t := mk {
  creator_id : uuid;
  title : string;
  description : string;
  goal_amount : decimal;
  raised_amount : option decimal;
  status : option project_status;
  category_id : option uuid;
  location : string;
  start_date : option timestamptz;
  end_date : option timestamptz;
  image_url : option string;
  created_at : option timestamptz;
  updated_at : option timestamptz
}.
End Project.

Module Donation.
(** CREATE TABLE donations, without the key column [id]. *)
Record t := mk {
  donor_id : option uuid;
  project_id : uuid;
  amount : decimal;
  transaction_id : option string;
  status : option donation_status;
  message : option string;
  is_anonymous : option bool;
  created_at : option timestamptz
}.

Definition with_status (s : option donation_status) (d : t) : t :=
  mk (donor_id d) (project_id d) (amount d) (transaction_id d) s
     (message d) (is_anonymous d) (created_at d).
End Donation.

#[global] Instance project_eq_dec : EqDecision Project.t.
Proof. solve_decision. Defined.

#[global] Instance donation_eq_dec : EqDecision Donation.t.
Proof. solve_decision. Defined.

(** ** The projects table under UPDATE *)

(** update_updated_at_column, as fired BEFORE UPDATE ON projects:
    NEW.updated_at = now(); RETURN NEW. *)
Definition update_updated_at_column (now : timestamptz) (NEW : Project.t) : Project.t :=
  Project.mk (Project.creator_id NEW) (Project.title NEW) (Project.description NEW)
    (Project.goal_amount NEW) (Project.raised_amount NEW) (Project.status NEW)
    (Project.category_id NEW) (Project.location NEW) (Project.start_date NEW)
    (Project.end_date NEW) (Project.image_url NEW) (Project.created_at NEW)
    (Some now).

(** The CHECK constraints of projects: goal_amount > 0, raised_amount >= 0
    and valid_date_range. *)
Definition valid_date_range (row : Project.t) : bool :=
  match Project.end_date row, Project.start_date row with
  | Some e, Some s => s <? e
  | _, _ => true
  end.

Definition projects_check (row : Project.t) : bool :=
  (0 <? Project.goal_amount row)
  && check_passes (sql_ge (Project.raised_amount row) (Some 0))
  && valid_date_range row.

(** The SET list of the trigger's UPDATE; every expression on the right reads
    the row as it was before the statement.
      raised_amount = raised_amount + NEW.amount,
      status = CASE WHEN raised_amount + NEW.amount >= goal_amount
                    THEN 'fully_funded'::project_status ELSE status END,
      updated_at = now() *)
Definition credit (NEW_amount : decimal) (now : timestamptz) (row : Project.t) : Project.t :=
  Project.mk (Project.creator_id row) (Project.title row) (Project.description row)
    (Project.goal_amount row)
    (sql_add (Project.raised_amount row) (Some NEW_amount))
    (if holds (sql_ge (sql_add (Project.raised_amount row) (Some NEW_amount))
                      (Some (Project.goal_amount row)))
     then Some fully_funded
     else Project.status row)
    (Project.category_id row) (Project.location row) (Project.start_date row)
    (Project.end_date row) (Project.image_url row) (Project.created_at row)
    (Some now).

(** UPDATE projects SET ... WHERE id = [id]: the new row is built, coerced to
    the column types, passed through the BEFORE UPDATE trigger of projects and
    checked against the table's constraints.  No matching row is not an
    error: the statement updates zero rows. *)
Definition update_projects (now : timestamptz) (set : Project.t -> Project.t)
    (id : uuid) (projects : gmap uuid Project.t) : result (gmap uuid Project.t) :=
  match projects !! id with
  | None => Ok projects
  | Some row =>
      let row1 := set row in
      ensure (match Project.raised_amount row1 with
             | Some r => decimal_fits r
             | None => true
             end) else numeric_value_out_of_range ;;
      let row2 := update_updated_at_column now row1 in
      ensure (projects_check row2) else check_violation ;;
      Ok (<[id := row2]> projects)
  end.

(** ** The trigger function

    CREATE FUNCTION update_project_raised_amount() RETURNS TRIGGER:
      IF NEW.status = 'completed' AND OLD.status != 'completed' THEN
        UPDATE projects SET ... WHERE id = NEW.project_id;
      END IF;
      RETURN NEW;
    The result is the projects table after the call and the row returned. *)
Definition fires (OLD NEW : Donation.t) : bool :=
  holds (sql_and (sql_eq (Donation.status NEW) (Some d_completed))
                 (sql_ne (Donation.status OLD) (Some d_completed))).

Definition update_project_raised_amount (now : timestamptz) (OLD NEW : Donation.t)
    (projects : gmap uuid Project.t) : result (gmap uuid Project.t * Donation.t) :=
  if fires OLD NEW
  then
    projects' <~ update_projects now (credit (Donation.amount NEW) now)
                   (Donation.project_id NEW) projects ;;
    Ok (projects', NEW)
  else Ok (projects, NEW).

(** ** The database *)

(** Of profiles only the keys matter here: they are what [donor_id]
    references. *)
Record DB := mkDB {
  profiles : gset uuid;
  projects : gmap uuid Project.t;
  donations : gmap uuid Donation.t
}.

(** Who runs a statement: a signed-in user of the application (the role
    [authenticated], with its [auth.uid()]), or a role that row-level security
    does not restrict. *)
Inductive caller :=
  | service_role
  | authenticated (uid : uuid).

(** transaction_id text UNIQUE: no other row carries the same non-null
    value.  [self] is the key of the row being rewritten, if any. *)
Definition transaction_id_free (self : option uuid) (tx : option string)
    (rows : gmap uuid Donation.t) : bool :=
  match tx with
  | None => true
  | Some s =>
      bool_decide (map_Forall
        (fun k d => Some k = self ∨ Donation.transaction_id d ≠ Some s) rows)
  end.

(** donor_id uuid REFERENCES profiles(id) *)
Definition donor_exists (d : Donation.t) (db : DB) : bool :=
  match Donation.donor_id d with
  | None => true
  | Some u => bool_decide (u ∈ profiles db)
  end.

(** project_id uuid NOT NULL REFERENCES projects(id) *)
Definition project_exists (d : Donation.t) (db : DB) : bool :=
  bool_decide (is_Some (projects db !! Donation.project_id d)).

(** The policy "Authenticated users can create donations":
    FOR INSERT TO authenticated WITH CHECK (donor_id = auth.uid()). *)
Definition may_insert (who : caller) (d : Donation.t) : bool :=
  match who with
  | service_role => true
  | authenticated uid => holds (sql_eq (Donation.donor_id d) (Some uid))
  end.

(** INSERT INTO donations of one complete row (defaults already filled in).
    The only triggers of the schema on donations are AFTER UPDATE, so an
    INSERT runs none: the projects table is carried over as it is. *)
Definition insert_donation (who : caller) (id : uuid) (row : Donation.t)
    (db : DB) : result DB :=
  ensure (decimal_fits (Donation.amount row)) else numeric_value_out_of_range ;;
  ensure (may_insert who row) else row_security_violation ;;
  ensure (0 <? Donation.amount row) else check_violation ;;
  ensure (bool_decide (donations db !! id = None)) else unique_violation ;;
  ensure (transaction_id_free None (Donation.transaction_id row) (donations db))
    else unique_violation ;;
  ensure (donor_exists row db) else foreign_key_violation ;;
  ensure (project_exists row db) else foreign_key_violation ;;
  Ok (mkDB (profiles db) (projects db) (<[id := row]> (donations db))).

(** UPDATE donations SET <every column> = NEW WHERE id = [id], run by a role
    that row-level security does not restrict (the policies grant UPDATE on
    donations to nobody).  The row's constraints are checked, the row is
    written, and on_donation_completed (AFTER UPDATE ... FOR EACH ROW) calls
    the trigger function with the old and the new row; an error anywhere
    aborts the statement. *)
Definition update_donation (now : timestamptz) (id : uuid) (NEW : Donation.t)
    (db : DB) : result DB :=
  match donations db !! id with
  | None => Ok db
  | Some OLD =>
      ensure (decimal_fits (Donation.amount NEW)) else numeric_value_out_of_range ;;
      ensure (0 <? Donation.amount NEW) else check_violation ;;
      ensure (transaction_id_free (Some id) (Donation.transaction_id NEW) (donations db))
        else unique_violation ;;
      ensure (donor_exists NEW db) else foreign_key_violation ;;
      ensure (project_exists NEW db) else foreign_key_violation ;;
      fired <~ update_project_raised_amount now OLD NEW (projects db) ;;
      Ok (mkDB (profiles db) (fired.1) (<[id := NEW]> (donations db)))
  end.

Inductive statement :=
  | INSERT_INTO_donations (who : caller) (id : uuid) (row : Donation.t)
  | UPDATE_donations (now : timestamptz) (id : uuid) (NEW : Donation.t).

Definition exec (s : statement) (db : DB) : result DB :=
  match s with
  | INSERT_INTO_donations who id row => insert_donation who id row db
  | UPDATE_donations now id NEW => update_donation now id NEW db
  end.

(** The database a statement leaves behind: a failed statement is rolled
    back. *)
Definition after (s : statement) (db : DB) : DB :=
  match exec s db with
  | Ok db' => db'
  | Err _ => db
  end.

Definition after_all (ss : list statement) (db : DB) : DB :=
  foldl (fun db s => after s db) db ss.

(** ** The donation modal *)

(** A JavaScript number as [parseFloat] returns it.  A finite one is carried
    as the rational it is written as in the request body. *)
Inductive js_number :=
  | NaN
  | Infinity (negative : bool)
  | Finite (q : Q).

Definition isNaN (x : js_number) : bool :=
  match x with
  | NaN => true
  | _ => false
  end.

(** [x <= 0] *)
Definition js_le_0 (x : js_number) : bool :=
  match x with
  | NaN => false
  | Infinity negative => negative
  | Finite q => (Qnum q <=? 0)
  end.

(** Rounding to the two decimals of the column, half away from zero. *)
Definition to_decimal (q : Q) : decimal :=
  let n := Qnum q * 100 in
  let d := Zpos (Qden q) in
  Z.sgn n * ((2 * Z.abs n + d) / (2 * d)).

Inductive outcome :=
  | not_signed_in
  | invalid_amount
  | failed (e : sql_error)
  | succeeded.

(** handleDonate of DonationModal.  [donationAmount] is [parseFloat(amount)];
    [transaction_id] is the generated [txn_...] text; [id] and [now] are what
    the column defaults gen_random_uuid() and now() produce. *)
Definition handleDonate (user : option uuid) (projectId : uuid)
    (donationAmount : js_number) (message : string) (isAnonymous : bool)
    (transaction_id : string) (id : uuid) (now : timestamptz)
    (db : DB) : DB * outcome :=
  match user with
  | None => (db, not_signed_in)
  | Some user_id =>
      if isNaN donationAmount || js_le_0 donationAmount
      then (db, invalid_amount)
      else
        match donationAmount with
        | Finite q =>
            let row :=
              Donation.mk (Some user_id) projectId (to_decimal q)
                (Some transaction_id) (Some d_completed) (Some message)
                (Some isAnonymous) (Some now) in
            match insert_donation (authenticated user_id) id row db with
            | Ok db' => (db', succeeded)
            | Err e => (db, failed e)
            end
        | _ => (db, failed not_null_violation)
        end
  end.

(** ** Sample rows for the scenarios *)

Definition sample_project (st : project_status) (raised goal : Z) : Project.t :=
  Project.mk 1%N "Village well" "A well for the village" (hundredths goal)
    (Some (hundredths raised)) (Some st) None "Kano" None None None (Some 0) (Some 0).

Definition sample_donation (st : donation_status) (amount : Z) : Donation.t :=
  Donation.mk (Some 2%N) 7%N (hundredths amount) None (Some st) (Some "") (Some false)
    (Some 0).

(** One project, with key 7, and the donations given. *)
Definition sample_db (p : Project.t) (ds : gmap N Donation.t) : DB :=
  mkDB {[ 1%N; 2%N ]} {[ 7%N := p ]} ds.

(** ** Histories

    The successive values written to the [status] column of one donation
    row, each with the time of its statement, and what the trigger function
    does along them. *)
Fixpoint replay (d : Donation.t) (history : list (timestamptz * option donation_status))
    (ps : gmap uuid Project.t) : result (gmap uuid Project.t) :=
  match history with
  | [] => Ok ps
  | (now, s) :: rest =>
      fired <~ update_project_raised_amount now d (Donation.with_status s d) ps ;;
      replay (Donation.with_status s d) rest (fired.1)
  end.

(** How many writes of a history move the status into [completed] from
    another status. *)
Fixpoint entries (d : Donation.t) (history : list (timestamptz * option donation_status)) : Z :=
  match history with
  | [] => 0
  | (_, s) :: rest =>
      (if fires d (Donation.with_status s d) then 1 else 0)
      + entries (Donation.with_status s d) rest
  end.

(** ** Relations between a project row before and after *)

Definition raised_le (row row' : Project.t) : Prop :=
  match Project.raised_amount row, Project.raised_amount row' with
  | Some r, Some r' => r <= r'
  | None, None => True
  | _, _ => False
  end.

Definition status_kept_or_funded (row row' : Project.t) : Prop :=
  (Project.status row' = Project.status row ∨ Project.status row' = Some fully_funded)
  ∧ (Project.status row = Some fully_funded → Project.status row' = Some fully_funded).

(** Every column but raised_amount, status and updated_at is the same. *)
Definition same_other_columns (row row' : Project.t) : Prop :=
  Project.creator_id row' = Project.creator_id row
  ∧ Project.title row' = Project.title row
  ∧ Project.description row' = Project.description row
  ∧ Project.goal_amount row' = Project.goal_amount row
  ∧ Project.category_id row' = Project.category_id row
  ∧ Project.location row' = Project.location row
  ∧ Project.start_date row' = Project.start_date row
  ∧ Project.end_date row' = Project.end_date row
  ∧ Project.image_url row' = Project.image_url row
  ∧ Project.created_at row' = Project.created_at row.

(** ** Integrity of a database

    What the constraints of the schema say about the rows that are stored:
    the CHECK and the column type of donations.amount, the two foreign keys
    of donations, the UNIQUE on transaction_id, and the CHECKs and the column
    type of raised_amount on projects. *)
Record wf (db : DB) : Prop := mk_wf {
  wf_amount : ∀ id d, donations db !! id = Some d →
    0 < Donation.amount d ∧ decimal_fits (Donation.amount d) = true;
  wf_project_id : ∀ id d, donations db !! id = Some d →
    is_Some (projects db !! Donation.project_id d);
  wf_donor_id : ∀ id d u, donations db !! id = Some d →
    Donation.donor_id d = Some u → u ∈ profiles db;
  wf_transaction_id : ∀ i j d e s,
    donations db !! i = Some d → donations db !! j = Some e →
    Donation.transaction_id d = Some s → Donation.transaction_id e = Some s →
    i = j;
  wf_projects : ∀ k row, projects db !! k = Some row →
    projects_check row = true
    ∧ ∀ r, Project.raised_amount row = Some r → decimal_fits r = true
}.

(** ** Totals over donations *)

(** What a donation row counts for in the completed total of project [k]. *)
Definition counted (k : uuid) (d : Donation.t) : Z :=
  if bool_decide (Donation.status d = Some d_completed ∧ Donation.project_id d = k)
  then Donation.amount d
  else 0.

(** The sum of the amounts of the completed donations of project [k]: the
    quantity raised_amount is kept for ("Function to update raised_amount
    when donation is completed"). *)
Definition completed_total (k : uuid) (rows : gmap uuid Donation.t) : Z :=
  map_fold (fun _ d acc => counted k d + acc) 0 rows.

(** The statements that complete, one after the other, the donations of a
    list of (time, key, stored row): each writes the stored row back with
    status completed. *)
Definition complete (item : timestamptz * uuid * Donation.t) : statement :=
  UPDATE_donations (item.1.1) (item.1.2)
    (Donation.with_status (Some d_completed) (item.2)).

Definition amounts (items : list (timestamptz * uuid * Donation.t)) : Z :=
  foldr (fun item acc => Donation.amount (item.2) + acc) 0 items.

(** The donations of a list are stored, distinct, directed to project [k]
    and not yet completed. *)
Definition completable (k : uuid) (items : list (timestamptz * uuid * Donation.t))
    (db : DB) : Prop :=
  NoDup (map (fun item => item.1.2) items)
  ∧ Forall (fun item =>
      donations db !! item.1.2 = Some (item.2)
      ∧ Donation.project_id (item.2) = k
      ∧ ∃ s, Donation.status (item.2) = Some s ∧ s ≠ d_completed) items.

(** ** Row-level security on projects *)

(** CREATE TYPE user_role AS ENUM ('donor', 'project_creator', 'admin');
    the column profiles.role, by profile key. *)
Inductive user_role := donor | project_creator | admin.

#[global] Instance user_role_eq_dec : EqDecision user_role.
Proof. solve_decision. Defined.

(** EXISTS (SELECT 1 FROM profiles
            WHERE profiles.id = auth.uid() AND profiles.role = 'admin') *)
Definition is_admin (roles : gmap uuid user_role) (uid : uuid) : bool :=
  bool_decide (roles !! uid = Some admin).

(** "Active projects are viewable by everyone", FOR SELECT TO authenticated:
    USING (status IN ('active', 'fully_funded', 'completed')
           OR creator_id = auth.uid() OR <admin>).  A NULL status makes the
    first disjunct NULL, which does not pass on its own. *)
Definition projects_select_policy (roles : gmap uuid user_role) (uid : uuid)
    (row : Project.t) : bool :=
  match Project.status row with
  | Some s => bool_decide (s ∈ [active; fully_funded; completed])
  | None => false
  end
  || bool_decide (Project.creator_id row = uid)
  || is_admin roles uid.

(** "Creators can update own projects", FOR UPDATE TO authenticated:
    USING and WITH CHECK (creator_id = auth.uid() OR <admin>). *)
Definition projects_update_policy (roles : gmap uuid user_role) (uid : uuid)
    (row : Project.t) : bool :=
  bool_decide (Project.creator_id row = uid) || is_admin roles uid.

(** supabase.from('projects').update(...).eq('id', id) as the signed-in user
    [uid], for a SET list [set] that assigns neither a key column nor
    raised_amount.  Rows the user may not read or update are not matched, and
    that is no error; the new row passes through the BEFORE UPDATE trigger of
    projects, the WITH CHECK of the policy and the CHECK constraints. *)
Definition update_projects_as (roles : gmap uuid user_role) (uid : uuid)
    (now : timestamptz) (set : Project.t -> Project.t) (id : uuid)
    (ps : gmap uuid Project.t) : result (gmap uuid Project.t) :=
  match ps !! id with
  | None => Ok ps
  | Some row =>
      if projects_select_policy roles uid row && projects_update_policy roles uid row
      then
        let row2 := update_updated_at_column now (set row) in
        ensure (projects_update_policy roles uid row2) else row_security_violation ;;
        ensure (projects_check row2) else check_violation ;;
        Ok (<[id := row2]> ps)
      else Ok ps
  end.

(** ** The admin panel *)

(** .update({ status: 'active', start_date: new Date().toISOString() }) *)
Definition approved (client_now : timestamptz) (row : Project.t) : Project.t :=
  Project.mk (Project.creator_id row) (Project.title row) (Project.description row)
    (Project.goal_amount row) (Project.raised_amount row) (Some active)
    (Project.category_id row) (Project.location row) (Some client_now)
    (Project.end_date row) (Project.image_url row) (Project.created_at row)
    (Project.updated_at row).

(** .update({ status: 'cancelled' }) *)
Definition rejected (row : Project.t) : Project.t :=
  Project.mk (Project.creator_id row) (Project.title row) (Project.description row)
    (Project.goal_amount row) (Project.raised_amount row) (Some cancelled)
    (Project.category_id row) (Project.location row) (Project.start_date row)
    (Project.end_date row) (Project.image_url row) (Project.created_at row)
    (Project.updated_at row).

(** What a handler of the panel leaves: the projects table, and the error it
    caught and logged, if any. *)
Definition caught (r : result (gmap uuid Project.t)) (ps : gmap uuid Project.t)
    : gmap uuid Project.t * option sql_error :=
  match r with
  | Ok ps' => (ps', None)
  | Err e => (ps, Some e)
  end.

(** handleApprove of AdminPanel, run by the signed-in user [uid];
    [client_now] is the browser's [new Date()], [now] the database's. *)
Definition handleApprove (roles : gmap uuid user_role) (uid : uuid)
    (client_now now : timestamptz) (projectId : uuid)
    (ps : gmap uuid Project.t) : gmap uuid Project.t * option sql_error :=
  caught (update_projects_as roles uid now (approved client_now) projectId ps) ps.

(** handleReject of AdminPanel. *)
Definition handleReject (roles : gmap uuid user_role) (uid : uuid)
    (now : timestamptz) (projectId : uuid)
    (ps : gmap uuid Project.t) : gmap uuid Project.t * option sql_error :=
  caught (update_projects_as roles uid now rejected projectId ps) ps.

(** ** Deleting rows: the ON DELETE actions of the foreign keys *)

(** DELETE FROM projects WHERE id = [id], run by a role that row-level
    security does not restrict, with the action of
    donations.project_id ... REFERENCES projects(id) ON DELETE CASCADE: the
    donations of the project go with it.  No trigger of the schema runs on
    DELETE. *)
Definition delete_project (id : uuid) (db : DB) : DB :=
  match projects db !! id with
  | None => db
  | Some _ =>
      mkDB (profiles db) (delete id (projects db))
        (filter (fun kd => Donation.project_id (kd.2) ≠ id) (donations db))
  end.

(** A donation whose project is not among those created by [u]. *)
Definition survives (u : uuid) (ps : gmap uuid Project.t) (d : Donation.t) : bool :=
  match ps !! Donation.project_id d with
  | Some row => bool_decide (Project.creator_id row ≠ u)
  | None => true
  end.

(** donor_id uuid REFERENCES profiles(id) ON DELETE SET NULL *)
Definition set_null_donor (u : uuid) (d : Donation.t) : Donation.t :=
  if bool_decide (Donation.donor_id d = Some u)
  then Donation.mk None (Donation.project_id d) (Donation.amount d)
         (Donation.transaction_id d) (Donation.status d) (Donation.message d)
         (Donation.is_anonymous d) (Donation.created_at d)
  else d.

(** DELETE FROM profiles WHERE id = [u] (profiles has no DELETE policy; the
    statement is a privileged one, or the cascade from auth.users), with the
    actions of the foreign keys: projects.creator_id ON DELETE CASCADE, then
    donations.project_id ON DELETE CASCADE for the projects deleted, and
    donations.donor_id ON DELETE SET NULL.  The SET NULL is an UPDATE of
    donations and runs on_donation_completed, which does nothing for it: see
    [account_deletion_keeps_the_ledger]. *)
Definition delete_profile (u : uuid) (db : DB) : DB :=
  if bool_decide (u ∈ profiles db)
  then
    mkDB (profiles db ∖ {[ u ]})
      (filter (fun kr => Project.creator_id (kr.2) ≠ u) (projects db))
      (set_null_donor u <$>
         filter (fun kd => survives u (projects db) (kd.2) = true) (donations db))
  else db.

(** ** Basic facts about the trigger *)

Lemma fires_spec (OLD NEW : Donation.t) :
  fires OLD NEW = true ↔
  Donation.status NEW = Some d_completed ∧
  ∃ s, Donation.status OLD = Some s ∧ s ≠ d_completed.
Proof.
  unfold fires. destruct (Donation.status NEW) as [[]|], (Donation.status OLD) as [[]|];
    simpl; split; try discriminate; try (intros [? (s & ? & ?)]; congruence);
    intros _; (split; [reflexivity|]); eexists; (split; [reflexivity|discriminate]).
Qed.

Lemma fires_same_status (OLD NEW : Donation.t) :
  Donation.status NEW = Donation.status OLD → fires OLD NEW = false.
Proof.
  unfold fires. intros ->. by destruct (Donation.status OLD) as [[]|].
Qed.

Lemma fires_old_completed (OLD NEW : Donation.t) :
  Donation.status OLD = Some d_completed → fires OLD NEW = false.
Proof.
  unfold fires. intros ->. by destruct (Donation.status NEW) as [[]|].
Qed.

Lemma trigger_idle now (OLD NEW : Donation.t) (ps : gmap N Project.t) :
  fires OLD NEW = false →
  update_project_raised_amount now OLD NEW ps = Ok (ps, NEW).
Proof. unfold update_project_raised_amount. by intros ->. Qed.

(** What a successful UPDATE of projects did. *)
Lemma update_projects_Ok now set id (ps ps' : gmap N Project.t) :
  update_projects now set id ps = Ok ps' →
  (ps !! id = None ∧ ps' = ps) ∨
  (∃ row, ps !! id = Some row ∧
          ps' = <[id := update_updated_at_column now (set row)]> ps ∧
          projects_check (update_updated_at_column now (set row)) = true ∧
          match Project.raised_amount (set row) with
          | Some r => decimal_fits r = true
          | None => True
          end).
Proof.
  unfold update_projects. destruct (ps !! id) as [row|]; [|left; split; congruence].
  intros H. right. exists row. split; [done|].
  destruct (Project.raised_amount (set row)) as [r|] eqn:Hr.
  - destruct (decimal_fits r); [|discriminate]. simpl in H.
    destruct (projects_check _) eqn:Hc; [|discriminate]. simpl in H.
    by inversion H.
  - simpl in H. destruct (projects_check _) eqn:Hc; [|discriminate]. simpl in H.
    by inversion H.
Qed.

(** What a successful call of the trigger function did. *)
Lemma trigger_Ok now OLD NEW (ps ps' : gmap N Project.t) ret :
  update_project_raised_amount now OLD NEW ps = Ok (ps', ret) →
  ret = NEW ∧
  (ps' = ps ∨
   ∃ row, fires OLD NEW = true ∧
          ps !! Donation.project_id NEW = Some row ∧
          ps' = <[Donation.project_id NEW :=
                    update_updated_at_column now (credit (Donation.amount NEW) now row)]> ps).
Proof.
  unfold update_project_raised_amount. destruct (fires OLD NEW) eqn:Hf.
  - destruct (update_projects _ _ _ _) as [qs|e] eqn:Hu; simpl; [|discriminate].
    intros [= <- <-]. split; [done|].
    apply update_projects_Ok in Hu as [[_ ->]|(row & Hrow & -> & _)]; [by left|].
    right. by exists row.
  - intros [= <- <-]. by split; [|left].
Qed.

(** Crediting a non-negative amount keeps the CHECK constraints of projects. *)
Lemma credit_check now amount row r :
  Project.raised_amount row = Some r →
  projects_check row = true →
  0 <= amount →
  projects_check (update_updated_at_column now (credit amount now row)) = true.
Proof.
  intros Hr Hc Ha. revert Hc. unfold projects_check, valid_date_range. simpl.
  rewrite Hr. simpl. rewrite !andb_true_iff.
  intros [[Hg Hr0] Hd]. repeat split; try done.
  destruct (0 <=? r) eqn:Hr1; [|discriminate].
  apply Z.leb_le in Hr1. by rewrite (proj2 (Z.leb_le 0 (r + amount))) by lia.
Qed.

Lemma projects_check_raised row r :
  Project.raised_amount row = Some r → projects_check row = true → 0 <= r.
Proof.
  intros Hr. unfold projects_check. rewrite Hr. simpl. rewrite !andb_true_iff.
  intros [[_ H] _]. destruct (0 <=? r) eqn:Hr1; [|discriminate]. by apply Z.leb_le.
Qed.

(** An accepted update computes the credited row. *)
Lemma update_projects_accepts now amount id (ps : gmap N Project.t) row r :
  ps !! id = Some row →
  Project.raised_amount row = Some r →
  projects_check row = true →
  0 <= amount →
  decimal_fits (r + amount) = true →
  update_projects now (credit amount now) id ps =
    Ok (<[id := update_updated_at_column now (credit amount now row)]> ps).
Proof.
  intros Hrow Hr Hc Ha Hfit. unfold update_projects. rewrite Hrow.
  simpl. rewrite Hr. simpl. rewrite Hfit. simpl.
  by rewrite (credit_check now amount row r).
Qed.

(** The trigger function when it fires on an existing project and the
    credited row is accepted. *)
Lemma trigger_credits now OLD NEW (ps : gmap N Project.t) row r :
  fires OLD NEW = true →
  ps !! Donation.project_id NEW = Some row →
  Project.raised_amount row = Some r →
  projects_check row = true →
  0 < Donation.amount NEW →
  decimal_fits (r + Donation.amount NEW) = true →
  update_project_raised_amount now OLD NEW ps =
    Ok (<[Donation.project_id NEW :=
            update_updated_at_column now (credit (Donation.amount NEW) now row)]> ps,
        NEW).
Proof.
  intros Hf Hrow Hr Hc Ha Hfit. unfold update_project_raised_amount. rewrite Hf.
  by rewrite (update_projects_accepts _ _ _ _ row r); [|done|done|done|lia|done].
Qed.

(** Row by row: a successful call keeps a row or replaces the row of the
    donation's project by the credited one. *)
Lemma trigger_rows now OLD NEW (ps ps' : gmap N Project.t) ret k :
  update_project_raised_amount now OLD NEW ps = Ok (ps', ret) →
  ps' !! k = ps !! k ∨
  (k = Donation.project_id NEW ∧
   ∃ row, ps !! k = Some row ∧
          ps' !! k = Some (update_updated_at_column now
                             (credit (Donation.amount NEW) now row))).
Proof.
  intros H. apply trigger_Ok in H as [_ [->|(row & _ & Hrow & ->)]]; [by left|].
  destruct (decide (k = Donation.project_id NEW)) as [->|Hk].
  - right. split; [done|]. exists row. split; [done|]. apply lookup_insert_eq.
  - left. by apply lookup_insert_ne.
Qed.

Lemma raised_le_refl row : raised_le row row.
Proof. unfold raised_le. destruct (Project.raised_amount row); [lia|done]. Qed.

Lemma raised_le_trans row1 row2 row3 :
  raised_le row1 row2 → raised_le row2 row3 → raised_le row1 row3.
Proof.
  unfold raised_le.
  destruct (Project.raised_amount row1), (Project.raised_amount row2),
    (Project.raised_amount row3); try done. lia.
Qed.

Lemma credit_raised_le now amount row :
  0 <= amount → raised_le row (update_updated_at_column now (credit amount now row)).
Proof.
  intros Ha. unfold raised_le. simpl.
  destruct (Project.raised_amount row); simpl; [lia|done].
Qed.

Lemma status_kept_or_funded_refl row : status_kept_or_funded row row.
Proof. split; [by left|done]. Qed.

Lemma status_kept_or_funded_trans row1 row2 row3 :
  status_kept_or_funded row1 row2 → status_kept_or_funded row2 row3 →
  status_kept_or_funded row1 row3.
Proof.
  intros [H12 F12] [H23 F23]. split.
  - destruct H23 as [->| ->]; [done | by right].
  - intros H. by apply F23, F12.
Qed.

Lemma credit_status now amount row :
  status_kept_or_funded row (update_updated_at_column now (credit amount now row)).
Proof.
  unfold status_kept_or_funded. simpl.
  destruct (holds _); [by split; [right|] | by split; [left|]].
Qed.

Lemma credit_same_other_columns now amount row :
  same_other_columns row (update_updated_at_column now (credit amount now row)).
Proof. by repeat split. Qed.

Lemma entries_nonneg d history : 0 <= entries d history.
Proof.
  revert d. induction history as [|[now s] rest IH]; intros d; simpl; [lia|].
  specialize (IH (Donation.with_status s d)).
  destruct (fires _ _); lia.
Qed.

(** ** Basic facts about statements *)

Lemma ensure_Ok {A} (c : bool) e (k : result A) a :
  (ensure c else e ;; k) = Ok a ↔ c = true ∧ k = Ok a.
Proof. destruct c; simpl; split; try tauto; try discriminate. by intros [? ?]. Qed.

Ltac ensured H :=
  repeat (let Hc := fresh "Hc" in apply ensure_Ok in H as [Hc H]).

Lemma insert_donation_Ok who id row db db' :
  insert_donation who id row db = Ok db' →
  db' = mkDB (profiles db) (projects db) (<[id := row]> (donations db)) ∧
  donations db !! id = None ∧
  0 < Donation.amount row.
Proof.
  unfold insert_donation. intros H. ensured H. inversion H. split; [done|].
  split; [by apply bool_decide_eq_true in Hc2 | by apply Z.ltb_lt].
Qed.

Lemma update_donation_Ok now id NEW db db' :
  update_donation now id NEW db = Ok db' →
  (donations db !! id = None ∧ db' = db) ∨
  (∃ OLD ps', donations db !! id = Some OLD ∧
              0 < Donation.amount NEW ∧
              is_Some (projects db !! Donation.project_id NEW) ∧
              update_project_raised_amount now OLD NEW (projects db) = Ok (ps', NEW) ∧
              db' = mkDB (profiles db) ps' (<[id := NEW]> (donations db))).
Proof.
  unfold update_donation. destruct (donations db !! id) as [OLD|]; [|left; split; congruence].
  intros H. right. ensured H.
  destruct (update_project_raised_amount _ _ _ _) as [[ps' ret]|] eqn:Ht; [|discriminate].
  simpl in H. inversion H. exists OLD, ps'.
  pose proof (trigger_Ok _ _ _ _ _ _ Ht) as [-> _].
  repeat split; try done; [by apply Z.ltb_lt | by apply bool_decide_eq_true in Hc3].
Qed.

(** An INSERT never touches the projects table. *)
Lemma after_insert_projects who id row db :
  projects (after (INSERT_INTO_donations who id row) db) = projects db.
Proof.
  unfold after. simpl. destruct (insert_donation _ _ _ _) as [db'|] eqn:H; [|done].
  by apply insert_donation_Ok in H as [-> _].
Qed.

(** Every statement either keeps the projects table or changes it by one
    successful call of the trigger function with a positive amount. *)
Lemma after_projects s db :
  projects (after s db) = projects db ∨
  ∃ now OLD NEW, 0 < Donation.amount NEW ∧
    update_project_raised_amount now OLD NEW (projects db)
      = Ok (projects (after s db), NEW).
Proof.
  destruct s as [who id row | now id NEW].
  - left. apply after_insert_projects.
  - unfold after. simpl. destruct (update_donation _ _ _ _) as [db'|] eqn:H; [|by left].
    apply update_donation_Ok in H as [[_ ->]|(OLD & ps' & _ & Hpos & _ & Ht & ->)]; [by left|].
    right. by exists now, OLD, NEW.
Qed.


(** ** The ledger update and the project's status *)

(** C1 (as stated, refuted).  The specification has a cancelled project with
    raised_amount 20 and goal_amount 50 that receives a completed donation of
    40 end with raised_amount 60 and status still cancelled.  The UPDATE that
    completes the donation is accepted and raised_amount becomes 60, but the
    CASE of the trigger has no branch for terminal states: the status becomes
    fully_funded. *)
Lemma cancelled_project_becomes_fully_funded :
  let db := sample_db (sample_project cancelled 20 50)
                      {[ 3%N := sample_donation d_pending 40 ]} in
  ∃ db' row',
    exec (UPDATE_donations 1 3%N (sample_donation d_completed 40)) db = Ok db'
    ∧ projects db' !! 7%N = Some row'
    ∧ Project.raised_amount row' = Some (hundredths 60)
    ∧ Project.status row' = Some fully_funded
    ∧ Project.status row' ≠ Some cancelled.
Proof.
  eexists _, _. split; [vm_compute; reflexivity|].
  split; [vm_compute; reflexivity|]. by repeat split.
Qed.

(** C1 (amended).  When a donation moves into completed and the trigger's
    UPDATE of the target project row, whose raised_amount is not NULL, is
    accepted, the trigger has added the donation's amount to raised_amount
    and set status to fully_funded if the post-increment raised_amount
    reaches goal_amount, whatever the current status of the project, terminal
    states included; otherwise the status is left as it is.  The UPDATE is
    accepted at least when the row satisfies the CHECK constraints of
    projects, the amount is positive and the new total fits decimal(12, 2).
    In particular a cancelled project with raised_amount 20 and goal_amount
    50 that receives a completed donation of 40 ends with raised_amount 60
    and status fully_funded. *)
Theorem credit_whatever_the_status :
  (∀ now OLD NEW (ps : gmap N Project.t) row r,
     fires OLD NEW = true →
     ps !! Donation.project_id NEW = Some row →
     Project.raised_amount row = Some r →
     projects_check row = true →
     0 < Donation.amount NEW →
     decimal_fits (r + Donation.amount NEW) = true →
     ∃ ps' row',
       update_project_raised_amount now OLD NEW ps = Ok (ps', NEW)
       ∧ ps' !! Donation.project_id NEW = Some row'
       ∧ (∀ k, k ≠ Donation.project_id NEW → ps' !! k = ps !! k)
       ∧ Project.raised_amount row' = Some (r + Donation.amount NEW)
       ∧ Project.status row' =
           (if Project.goal_amount row <=? r + Donation.amount NEW
            then Some fully_funded
            else Project.status row))
  ∧ (∀ now OLD NEW (ps ps' : gmap N Project.t) ret row r,
       fires OLD NEW = true →
       ps !! Donation.project_id NEW = Some row →
       Project.raised_amount row = Some r →
       update_project_raised_amount now OLD NEW ps = Ok (ps', ret) →
       ∃ row',
         ps' !! Donation.project_id NEW = Some row'
         ∧ Project.raised_amount row' = Some (r + Donation.amount NEW)
         ∧ Project.status row' =
             (if Project.goal_amount row <=? r + Donation.amount NEW
              then Some fully_funded
              else Project.status row))
  ∧ (∃ db' row',
       exec (UPDATE_donations 1 3%N (sample_donation d_completed 40))
            (sample_db (sample_project cancelled 20 50)
               {[ 3%N := sample_donation d_pending 40 ]}) = Ok db'
       ∧ projects db' !! 7%N = Some row'
       ∧ Project.raised_amount row' = Some (hundredths 60)
       ∧ Project.status row' = Some fully_funded).
Proof.
  assert (Hrow' : ∀ now amount row r,
            Project.raised_amount row = Some r →
            Project.raised_amount (update_updated_at_column now (credit amount now row))
              = Some (r + amount)
            ∧ Project.status (update_updated_at_column now (credit amount now row))
              = (if Project.goal_amount row <=? r + amount
                 then Some fully_funded
                 else Project.status row)).
  { intros now amount row r Hr. simpl. rewrite Hr. simpl. split; [done|].
    by destruct (Project.goal_amount row <=? r + amount). }
  split; [|split].
  - intros now OLD NEW ps row r Hf Hrow Hr Hc Ha Hfit.
    eexists _, _. rewrite (trigger_credits now OLD NEW ps row r) by done.
    split; [reflexivity|]. split; [apply lookup_insert_eq|].
    split; [intros k Hk; by apply lookup_insert_ne|]. by apply Hrow'.
  - intros now OLD NEW ps ps' ret row r Hf Hrow Hr.
    unfold update_project_raised_amount. rewrite Hf.
    destruct (update_projects _ _ _ _) as [qs|e] eqn:Hu; simpl; [|discriminate].
    intros [= <- _].
    apply update_projects_Ok in Hu as [[Hnone _]|(row0 & Hrow0 & -> & _)]; [congruence|].
    rewrite Hrow in Hrow0. injection Hrow0 as <-.
    eexists. split; [apply lookup_insert_eq|]. by apply Hrow'.
  - eexists _, _. split; [vm_compute; reflexivity|].
    split; [vm_compute; reflexivity|]. by split.
Qed.

Lemma credit_whatever_the_status_witness :
  ∃ ps' row',
    update_project_raised_amount 1 (sample_donation d_pending 40)
        (sample_donation d_completed 40) {[ 7%N := sample_project cancelled 20 50 ]}
      = Ok (ps', sample_donation d_completed 40)
    ∧ ps' !! 7%N = Some row'
    ∧ (∀ k, k ≠ 7%N → ps' !! k = ({[ 7%N := sample_project cancelled 20 50 ]} : gmap N Project.t) !! k)
    ∧ Project.raised_amount row' = Some 6000
    ∧ Project.status row' = Some fully_funded.
Proof.
  destruct credit_whatever_the_status as [H _].
  apply (H 1 (sample_donation d_pending 40)
           (sample_donation d_completed 40) {[ 7%N := sample_project cancelled 20 50 ]}
           (sample_project cancelled 20 50) 2000); reflexivity.
Defined.

(** C5.  The CASE of the trigger compares raised_amount + NEW.amount, the
    total after the increment, with goal_amount.  With goal_amount 100,
    raised_amount 0 and status active, completing a donation of 60 gives
    raised_amount 60 and status active; completing then a donation of 50
    gives raised_amount 110 and status fully_funded. *)
Theorem threshold_uses_post_increment_total :
  (∀ amount now row,
     Project.status (credit amount now row) =
       match Project.raised_amount row with
       | Some r => if Project.goal_amount row <=? r + amount
                   then Some fully_funded
                   else Project.status row
       | None => Project.status row
       end)
  ∧ ∃ db1 db2 row1 row2,
      exec (UPDATE_donations 1 3%N (sample_donation d_completed 60))
           (sample_db (sample_project active 0 100)
              {[ 3%N := sample_donation d_pending 60;
                 4%N := sample_donation d_pending 50 ]}) = Ok db1
      ∧ projects db1 !! 7%N = Some row1
      ∧ Project.raised_amount row1 = Some (hundredths 60)
      ∧ Project.status row1 = Some active
      ∧ exec (UPDATE_donations 2 4%N (sample_donation d_completed 50)) db1 = Ok db2
      ∧ projects db2 !! 7%N = Some row2
      ∧ Project.raised_amount row2 = Some (hundredths 110)
      ∧ Project.status row2 = Some fully_funded.
Proof.
  split.
  - intros amount now row. simpl.
    destruct (Project.raised_amount row) as [r|]; simpl; [|done].
    by destruct (Project.goal_amount row <=? r + amount).
  - eexists _, _, _, _. split; [vm_compute; reflexivity|].
    split; [vm_compute; reflexivity|]. split; [reflexivity|]. split; [reflexivity|].
    split; [vm_compute; reflexivity|]. split; [vm_compute; reflexivity|]. by split.
Qed.

(** ** Which writes reach the ledger *)

(** C2.  on_donation_completed is an AFTER UPDATE trigger, so a row that is
    inserted with status completed credits nothing: the projects table is the
    same after the INSERT.  handleDonate writes every donation that way
    (status: 'completed' in an insert), so it never changes a project: when
    it succeeds the new row is stored as completed and the projects table is
    as before; the last part shows such a success, a donation of 60 to an
    active project with goal 50 that stays at raised_amount 0. *)
Theorem insert_as_completed_credits_nothing :
  (∀ who id row db,
     projects (after (INSERT_INTO_donations who id
                        (Donation.with_status (Some d_completed) row)) db)
       = projects db)
  ∧ (∀ user projectId donationAmount message isAnonymous transaction_id id now db,
       let r := handleDonate user projectId donationAmount message isAnonymous
                  transaction_id id now db in
       projects (r.1) = projects db
       ∧ (r.2 = succeeded →
          donations db !! id = None
          ∧ ∃ row, donations (r.1) !! id = Some row
                   ∧ Donation.status row = Some d_completed
                   ∧ Donation.project_id row = projectId))
  ∧ (let r := handleDonate (Some 2%N) 7%N (Finite (60 # 1)) "" false "txn_1" 3%N 1
                (sample_db (sample_project active 0 50) ∅) in
     r.2 = succeeded
     ∧ projects (r.1) !! 7%N = Some (sample_project active 0 50)).
Proof.
  split; [intros; apply after_insert_projects|]. split.
  - intros user projectId x message isAnonymous txn id now db. unfold handleDonate.
    destruct user as [user_id|]; [|by split].
    destruct (isNaN x || js_le_0 x); [by split|].
    destruct x as [|negative|q]; try by split.
    destruct (insert_donation _ _ _ _) as [db'|e] eqn:H; [|by split].
    apply insert_donation_Ok in H as (-> & Hnew & _). simpl.
    split; [done|]. intros _. split; [done|].
    eexists. split; [apply lookup_insert_eq|]. by split.
  - split; vm_compute; reflexivity.
Qed.

Lemma insert_as_completed_credits_nothing_witness :
  let db := sample_db (sample_project active 0 50) ∅ in
  let r := handleDonate (Some 2%N) 7%N (Finite (60 # 1)) "" false "txn_1" 3%N 1 db in
  donations db !! 3%N = None
  ∧ ∃ row, donations (r.1) !! 3%N = Some row
           ∧ Donation.status row = Some d_completed
           ∧ Donation.project_id row = 7%N.
Proof.
  intros db r.
  destruct insert_as_completed_credits_nothing as (_ & H & _).
  destruct (H (Some 2%N) 7%N (Finite (60 # 1)) "" false "txn_1" 3%N 1 db) as [_ Hs].
  apply Hs. vm_compute. reflexivity.
Defined.

(** C4.  The ledger update happens only when the status moves from another
    value to completed.  An UPDATE of a donation whose old status is already
    completed, or whose status column is not changed, leaves the projects
    table as it is, at the level of the trigger function and of the whole
    statement; and when the trigger function did change the projects table,
    the new status is completed and the old one is another status. *)
Theorem ledger_untouched_without_transition now OLD NEW (ps : gmap N Project.t) :
  (Donation.status OLD = Some d_completed
   ∨ Donation.status NEW = Donation.status OLD →
   update_project_raised_amount now OLD NEW ps = Ok (ps, NEW))
  ∧ (∀ id db,
       donations db !! id = Some OLD →
       Donation.status OLD = Some d_completed
       ∨ Donation.status NEW = Donation.status OLD →
       projects (after (UPDATE_donations now id NEW) db) = projects db)
  ∧ (∀ ps' ret,
       update_project_raised_amount now OLD NEW ps = Ok (ps', ret) →
       ps' ≠ ps →
       Donation.status NEW = Some d_completed
       ∧ ∃ s, Donation.status OLD = Some s ∧ s ≠ d_completed).
Proof.
  assert (Hidle : Donation.status OLD = Some d_completed
                  ∨ Donation.status NEW = Donation.status OLD →
                  fires OLD NEW = false).
  { intros [H|H]; [by apply fires_old_completed | by apply fires_same_status]. }
  split; [intros H; by apply trigger_idle, Hidle|]. split.
  - intros id db Hold H. unfold after. simpl.
    destruct (update_donation _ _ _ _) as [db'|] eqn:Hu; [|done].
    apply update_donation_Ok in Hu as [[_ ->]|(OLD' & ps' & Hold' & _ & _ & Ht & ->)]; [done|].
    rewrite Hold in Hold'. injection Hold' as <-.
    rewrite trigger_idle in Ht by by apply Hidle. by injection Ht as <-.
  - intros ps' ret Ht Hne. apply fires_spec.
    destruct (fires OLD NEW) eqn:Hf; [done|].
    rewrite trigger_idle in Ht by done. by injection Ht as <- <-.
Qed.

Lemma ledger_untouched_without_transition_witness :
  update_project_raised_amount 1 (sample_donation d_completed 40)
      (Donation.mk None 7%N (hundredths 40) None (Some d_completed) (Some "thanks")
         (Some true) (Some 0))
      {[ 7%N := sample_project active 20 50 ]}
    = Ok ({[ 7%N := sample_project active 20 50 ]},
          Donation.mk None 7%N (hundredths 40) None (Some d_completed) (Some "thanks")
            (Some true) (Some 0))
  ∧ projects (after (UPDATE_donations 1 3%N (sample_donation d_pending 45))
                (sample_db (sample_project active 20 50)
                   {[ 3%N := sample_donation d_pending 40 ]}))
    = {[ 7%N := sample_project active 20 50 ]}.
Proof.
  split.
  - apply (ledger_untouched_without_transition 1 (sample_donation d_completed 40)).
    left. reflexivity.
  - apply (ledger_untouched_without_transition 1 (sample_donation d_pending 40)
             (sample_donation d_pending 45) ∅).
    + reflexivity.
    + right. reflexivity.
Defined.

(** C6.  A donation row with a zero or negative amount is refused by the
    CHECK (amount > 0) of donations, on INSERT and on UPDATE alike, whatever
    its status; the statement raises an error before on_donation_completed
    runs and the database, projects included, stays as it was.  The modal
    refuses such an amount even before it sends anything. *)
Theorem nonpositive_amount_rejected who now id NEW db :
  Donation.amount NEW <= 0 →
  (∃ e, insert_donation who id NEW db = Err e
        ∧ (decimal_fits (Donation.amount NEW) = true → may_insert who NEW = true →
           e = check_violation))
  ∧ (∀ OLD, donations db !! id = Some OLD →
        ∃ e, update_donation now id NEW db = Err e
             ∧ (decimal_fits (Donation.amount NEW) = true → e = check_violation))
  ∧ after (INSERT_INTO_donations who id NEW) db = db
  ∧ after (UPDATE_donations now id NEW) db = db
  ∧ (∀ user projectId x message isAnonymous transaction_id,
        js_le_0 x = true →
        (handleDonate user projectId x message isAnonymous transaction_id id now db).1
          = db).
Proof.
  intros Hneg.
  assert (Hchk : (0 <? Donation.amount NEW) = false) by (apply Z.ltb_ge; lia).
  assert (Hins : ∃ e, insert_donation who id NEW db = Err e
        ∧ (decimal_fits (Donation.amount NEW) = true → may_insert who NEW = true →
           e = check_violation)).
  { unfold insert_donation.
    destruct (decimal_fits (Donation.amount NEW)); simpl; [|by eexists].
    destruct (may_insert who NEW); simpl; [|by eexists].
    rewrite Hchk. simpl. by eexists. }
  assert (Hupd : ∀ OLD, donations db !! id = Some OLD →
        ∃ e, update_donation now id NEW db = Err e
             ∧ (decimal_fits (Donation.amount NEW) = true → e = check_violation)).
  { intros OLD Hold. unfold update_donation. rewrite Hold.
    destruct (decimal_fits (Donation.amount NEW)); simpl; [|by eexists].
    rewrite Hchk. simpl. by eexists. }
  split; [done|]. split; [done|]. split; [|split].
  - unfold after. simpl. by destruct Hins as (e & -> & _).
  - unfold after. simpl. destruct (donations db !! id) as [OLD|] eqn:Hold.
    + by destruct (Hupd OLD eq_refl) as (e & -> & _).
    + unfold update_donation. by rewrite Hold.
  - intros user projectId x message isAnonymous txn Hle. unfold handleDonate.
    destruct user; [|done]. rewrite Hle. by rewrite orb_true_r.
Qed.

Lemma nonpositive_amount_rejected_witness :
  let db := sample_db (sample_project active 20 50)
              {[ 3%N := sample_donation d_pending 5 ]} in
  update_donation 1 3%N (sample_donation d_completed (-5)) db = Err check_violation
  ∧ after (UPDATE_donations 1 3%N (sample_donation d_completed (-5))) db = db.
Proof.
  intros db.
  destruct (nonpositive_amount_rejected service_role 1 3%N
              (sample_donation d_completed (-5)) db) as (_ & Hupd & _ & Hafter & _).
  { vm_compute. discriminate. }
  split; [|exact Hafter].
  destruct (Hupd (sample_donation d_pending 5) eq_refl) as (e & He & Hcv).
  rewrite He. f_equal. by apply Hcv.
Defined.

(** ** Invariants of the projects table

    A relation between the old and the new version of a row that is
    reflexive, transitive and holds across one credit of a non-negative
    amount holds across any sequence of statements on donations. *)
Section Invariant.
Variable R : Project.t → Project.t → Prop.
Hypothesis R_refl : ∀ row, R row row.
Hypothesis R_trans : ∀ row1 row2 row3, R row1 row2 → R row2 row3 → R row1 row3.
Hypothesis R_credit : ∀ now amount row,
  0 <= amount → R row (update_updated_at_column now (credit amount now row)).

Lemma trigger_preserves now OLD NEW (ps ps' : gmap N Project.t) ret k row :
  0 <= Donation.amount NEW →
  update_project_raised_amount now OLD NEW ps = Ok (ps', ret) →
  ps !! k = Some row →
  ∃ row', ps' !! k = Some row' ∧ R row row'.
Proof using R_refl R_credit.
  intros Ha Ht Hrow.
  destruct (trigger_rows _ _ _ _ _ _ k Ht) as [->|(_ & row0 & Hrow0 & ->)].
  - by exists row.
  - eexists. split; [done|]. rewrite Hrow in Hrow0. injection Hrow0 as <-.
    by apply R_credit.
Qed.

Lemma after_preserves s db k row :
  projects db !! k = Some row →
  ∃ row', projects (after s db) !! k = Some row' ∧ R row row'.
Proof using R_refl R_credit.
  intros Hrow. destruct (after_projects s db) as [->|(now & OLD & NEW & Ha & Ht)].
  - by exists row.
  - apply (trigger_preserves now OLD NEW (projects db) _ NEW); [lia|done|done].
Qed.

Lemma after_all_preserves ss db k row :
  projects db !! k = Some row →
  ∃ row', projects (after_all ss db) !! k = Some row' ∧ R row row'.
Proof using R_refl R_trans R_credit.
  revert db row. induction ss as [|s ss IH]; intros db row Hrow; simpl.
  - by exists row.
  - destruct (after_preserves s db k row Hrow) as (row1 & Hrow1 & H1).
    destruct (IH (after s db) row1 Hrow1) as (row2 & Hrow2 & H2).
    exists row2. split; [done|]. by apply R_trans with row1.
Qed.
End Invariant.

(** C7.  raised_amount never decreases.  One call of the trigger function
    with a positive amount leaves every project row in place with a
    raised_amount at least as large; so does every sequence of INSERT and
    UPDATE statements on donations, whose amounts the CHECK of donations keeps
    positive; and a donation that goes from completed to refunded changes no
    project at all. *)
Theorem raised_amount_never_decreases :
  (∀ now OLD NEW (ps ps' : gmap N Project.t) ret k row,
     0 < Donation.amount NEW →
     update_project_raised_amount now OLD NEW ps = Ok (ps', ret) →
     ps !! k = Some row →
     ∃ row', ps' !! k = Some row' ∧ raised_le row row')
  ∧ (∀ ss db k row,
       projects db !! k = Some row →
       ∃ row', projects (after_all ss db) !! k = Some row' ∧ raised_le row row')
  ∧ (∀ now d (ps : gmap N Project.t),
       update_project_raised_amount now
           (Donation.with_status (Some d_completed) d)
           (Donation.with_status (Some d_refunded) d) ps
         = Ok (ps, Donation.with_status (Some d_refunded) d)).
Proof.
  split; [|split].
  - intros now OLD NEW ps ps' ret k row Ha.
    apply (trigger_preserves raised_le raised_le_refl credit_raised_le). lia.
  - apply (after_all_preserves raised_le raised_le_refl raised_le_trans credit_raised_le).
  - intros now d ps. by apply trigger_idle.
Qed.

Lemma raised_amount_never_decreases_witness :
  ∃ row', ({[ 7%N := update_updated_at_column 1
                       (credit 4000 1 (sample_project active 20 50)) ]}
             : gmap N Project.t) !! 7%N = Some row'
          ∧ raised_le (sample_project active 20 50) row'.
Proof.
  destruct raised_amount_never_decreases as [H _].
  apply (H 1 (sample_donation d_pending 40) (sample_donation d_completed 40)
           {[ 7%N := sample_project active 20 50 ]} _
           (sample_donation d_completed 40) 7%N).
  - reflexivity.
  - vm_compute. reflexivity.
  - reflexivity.
Defined.

(** C10.  The only status the ledger updater ever writes is fully_funded:
    after one call of the trigger function, and after any sequence of
    statements on donations, the status of every project is what it was or
    fully_funded, and a project that was fully_funded still is. *)
Theorem status_only_becomes_fully_funded :
  (∀ now OLD NEW (ps ps' : gmap N Project.t) ret k row,
     update_project_raised_amount now OLD NEW ps = Ok (ps', ret) →
     ps !! k = Some row →
     ∃ row', ps' !! k = Some row' ∧ status_kept_or_funded row row')
  ∧ (∀ ss db k row,
       projects db !! k = Some row →
       ∃ row', projects (after_all ss db) !! k = Some row'
               ∧ status_kept_or_funded row row').
Proof.
  split.
  - intros now OLD NEW ps ps' ret k row Ht Hrow.
    destruct (trigger_rows _ _ _ _ _ _ k Ht) as [->|(_ & row0 & Hrow0 & ->)].
    + exists row. split; [done|]. apply status_kept_or_funded_refl.
    + eexists. split; [done|]. rewrite Hrow in Hrow0. injection Hrow0 as <-.
      apply credit_status.
  - apply (after_all_preserves status_kept_or_funded status_kept_or_funded_refl
             status_kept_or_funded_trans).
    intros now amount row _. apply credit_status.
Qed.

Lemma status_only_becomes_fully_funded_witness :
  ∃ row', ({[ 7%N := update_updated_at_column 1
                       (credit 4000 1 (sample_project draft 20 50)) ]}
             : gmap N Project.t) !! 7%N = Some row'
          ∧ status_kept_or_funded (sample_project draft 20 50) row'.
Proof.
  destruct status_only_becomes_fully_funded as [H _].
  apply (H 1 (sample_donation d_pending 40) (sample_donation d_completed 40)
           {[ 7%N := sample_project draft 20 50 ]} _
           (sample_donation d_completed 40) 7%N).
  - vm_compute. reflexivity.
  - reflexivity.
Defined.

(** ** How often a donation is credited *)

(** C3 (as stated, refuted).  The specification has a donation credited once
    even when its status leaves completed and comes back.  A pending donation
    of 40 to an active project with raised_amount 0 and goal_amount 100 is
    completed, refunded and completed again by three accepted UPDATE
    statements: raised_amount ends at 80, not 40. *)
Lemma recompleted_donation_credited_twice :
  let db := sample_db (sample_project active 0 100)
                      {[ 3%N := sample_donation d_pending 40 ]} in
  ∃ db1 db2 db3 row,
    exec (UPDATE_donations 1 3%N (sample_donation d_completed 40)) db = Ok db1
    ∧ exec (UPDATE_donations 2 3%N (sample_donation d_refunded 40)) db1 = Ok db2
    ∧ exec (UPDATE_donations 3 3%N (sample_donation d_completed 40)) db2 = Ok db3
    ∧ projects db3 !! 7%N = Some row
    ∧ Project.raised_amount row = Some (hundredths 80)
    ∧ Project.raised_amount row ≠ Some (hundredths 40).
Proof.
  eexists _, _, _, _. split; [vm_compute; reflexivity|].
  split; [vm_compute; reflexivity|]. split; [vm_compute; reflexivity|].
  split; [vm_compute; reflexivity|]. by split.
Qed.

(** C3 (amended).  Along any sequence of values written to the status of a
    donation, its amount is added to raised_amount once for every write that
    moves the status into completed from another status: once at the first
    such write and once more at each later re-entry (completed, refunded,
    completed adds it twice). *)
Theorem credited_once_per_entry d history (ps : gmap N Project.t) row r :
  ps !! Donation.project_id d = Some row →
  Project.raised_amount row = Some r →
  projects_check row = true →
  0 < Donation.amount d →
  decimal_fits (r + entries d history * Donation.amount d) = true →
  ∃ ps' row',
    replay d history ps = Ok ps'
    ∧ ps' !! Donation.project_id d = Some row'
    ∧ Project.raised_amount row' = Some (r + entries d history * Donation.amount d).
Proof.
  revert d ps row r.
  induction history as [|[now s] rest IH]; intros d ps row r Hrow Hr Hc Ha Hfit; simpl.
  - exists ps, row. repeat split; [done|]. rewrite Hr. f_equal. lia.
  - set (d' := Donation.with_status s d) in *.
    pose proof (entries_nonneg d' rest) as Hn.
    pose proof (projects_check_raised row r Hr Hc) as Hr0.
    simpl in Hfit. fold d' in Hfit.
    destruct (fires d d') eqn:Hf.
    + assert (Hfit1 : decimal_fits (r + Donation.amount d') = true).
      { revert Hfit. unfold decimal_fits. rewrite !Z.ltb_lt. simpl. nia. }
      rewrite (trigger_credits now d d' ps row r) by done. simpl.
      destruct (IH d' (<[Donation.project_id d :=
                           update_updated_at_column now (credit (Donation.amount d) now row)]> ps)
                  (update_updated_at_column now (credit (Donation.amount d) now row))
                  (r + Donation.amount d)) as (ps' & row' & Hrep & Hrow' & Hr').
      * apply lookup_insert_eq.
      * simpl. by rewrite Hr.
      * apply (credit_check now _ row r); [done|done|lia].
      * done.
      * revert Hfit. simpl. intros <-. f_equal. lia.
      * exists ps', row'. split; [done|]. split; [done|].
        rewrite Hr'. simpl. f_equal. lia.
    + rewrite trigger_idle by done. simpl.
      destruct (IH d' ps row r) as (ps' & row' & Hrep & Hrow' & Hr'); try done.
      exists ps', row'. by repeat split.
Qed.

Lemma credited_once_per_entry_witness :
  ∃ ps' row',
    replay (sample_donation d_pending 40)
        [(1, Some d_completed); (2, Some d_refunded); (3, Some d_completed)]
        {[ 7%N := sample_project active 0 100 ]} = Ok ps'
    ∧ ps' !! 7%N = Some row'
    ∧ Project.raised_amount row' = Some 8000.
Proof.
  apply (credited_once_per_entry (sample_donation d_pending 40)
           [(1, Some d_completed); (2, Some d_refunded); (3, Some d_completed)]
           {[ 7%N := sample_project active 0 100 ]} (sample_project active 0 100) 0);
    reflexivity.
Defined.

(** ** Frame and failure *)

(** C9.  A call of the trigger function returns NEW as it received it,
    leaves every project row other than the one of NEW.project_id as it was,
    and in that row changes at most raised_amount, status and updated_at.
    For the whole UPDATE statement: the donation row stored is the one
    written, the other donations and the profiles are as before, and
    projects with another key are as before whether the statement succeeds
    or not. *)
Theorem only_the_target_row_changes now OLD NEW :
  (∀ (ps ps' : gmap N Project.t) ret,
     update_project_raised_amount now OLD NEW ps = Ok (ps', ret) →
     ret = NEW
     ∧ (∀ k, k ≠ Donation.project_id NEW → ps' !! k = ps !! k)
     ∧ match ps !! Donation.project_id NEW, ps' !! Donation.project_id NEW with
       | Some row, Some row' => same_other_columns row row'
       | None, None => True
       | _, _ => False
       end)
  ∧ (∀ id db db',
       donations db !! id = Some OLD →
       update_donation now id NEW db = Ok db' →
       donations db' = <[id := NEW]> (donations db)
       ∧ profiles db' = profiles db)
  ∧ (∀ id db k,
       k ≠ Donation.project_id NEW →
       projects (after (UPDATE_donations now id NEW) db) !! k = projects db !! k).
Proof.
  assert (Hframe : ∀ (ps ps' : gmap N Project.t) ret k,
            update_project_raised_amount now OLD NEW ps = Ok (ps', ret) →
            k ≠ Donation.project_id NEW → ps' !! k = ps !! k).
  { intros ps ps' ret k Ht Hk.
    by destruct (trigger_rows _ _ _ _ _ _ k Ht) as [?|[? _]]. }
  split; [|split].
  - intros ps ps' ret Ht. split; [by apply trigger_Ok in Ht as [-> _]|].
    split; [intros k; by apply (Hframe ps ps' ret)|].
    destruct (trigger_rows _ _ _ _ _ _ (Donation.project_id NEW) Ht)
      as [->|(_ & row & -> & ->)].
    + destruct (ps !! Donation.project_id NEW); [by repeat split|done].
    + apply credit_same_other_columns.
  - intros id db db' Hold Hu.
    apply update_donation_Ok in Hu as [[Hnone _]|(? & ps' & _ & _ & _ & _ & ->)]; [|done].
    by rewrite Hold in Hnone.
  - intros id db k Hk. unfold after. simpl.
    destruct (update_donation _ _ _ _) as [db'|] eqn:Hu; [|done].
    apply update_donation_Ok in Hu as [[_ ->]|(OLD' & ps' & _ & _ & _ & Ht & ->)]; [done|].
    simpl. apply trigger_Ok in Ht as [_ [->|(row & _ & _ & ->)]]; [done|].
    by apply lookup_insert_ne.
Qed.

Lemma only_the_target_row_changes_witness :
  let ps : gmap N Project.t :=
    {[ 7%N := sample_project active 20 50; 8%N := sample_project draft 0 10 ]} in
  let ps' : gmap N Project.t :=
    {[ 7%N := update_updated_at_column 1 (credit 4000 1 (sample_project active 20 50));
       8%N := sample_project draft 0 10 ]} in
  (∀ k, k ≠ 7%N → ps' !! k = ps !! k)
  ∧ same_other_columns (sample_project active 20 50)
      (update_updated_at_column 1 (credit 4000 1 (sample_project active 20 50))).
Proof.
  intros ps ps'.
  destruct (only_the_target_row_changes 1 (sample_donation d_pending 40)
              (sample_donation d_completed 40)) as [H _].
  destruct (H ps ps' (sample_donation d_completed 40)) as (_ & Hother & Hrow).
  { vm_compute. reflexivity. }
  split; [exact Hother | exact Hrow].
Defined.

(** C8.  When NEW.project_id names no project, the UPDATE inside the trigger
    function matches no row and changes nothing, the write of the donation is
    refused (by the foreign key on project_id when nothing else is wrong with
    the row), on UPDATE and on INSERT, and the database stays as it was.  In
    every case the trigger's UPDATE leaves all rows with another key alone. *)
Theorem missing_project_rejected :
  (∀ who now id NEW db,
     projects db !! Donation.project_id NEW = None →
     (∀ OLD, update_project_raised_amount now OLD NEW (projects db)
               = Ok (projects db, NEW))
     ∧ (∀ OLD, donations db !! id = Some OLD →
          ∃ e, update_donation now id NEW db = Err e
               ∧ (decimal_fits (Donation.amount NEW) = true →
                  0 < Donation.amount NEW →
                  transaction_id_free (Some id) (Donation.transaction_id NEW)
                    (donations db) = true →
                  donor_exists NEW db = true →
                  e = foreign_key_violation))
     ∧ (∃ e, insert_donation who id NEW db = Err e)
     ∧ after (UPDATE_donations now id NEW) db = db
     ∧ after (INSERT_INTO_donations who id NEW) db = db)
  ∧ (∀ now OLD NEW (ps ps' : gmap N Project.t) ret k,
       update_project_raised_amount now OLD NEW ps = Ok (ps', ret) →
       k ≠ Donation.project_id NEW →
       ps' !! k = ps !! k).
Proof.
  split.
  - intros who now id NEW db Hnone.
    assert (Hfk : project_exists NEW db = false).
    { unfold project_exists. rewrite Hnone. apply bool_decide_eq_false.
      by intros [? ?]. }
    assert (Hupd : ∀ OLD, donations db !! id = Some OLD →
          ∃ e, update_donation now id NEW db = Err e
               ∧ (decimal_fits (Donation.amount NEW) = true →
                  0 < Donation.amount NEW →
                  transaction_id_free (Some id) (Donation.transaction_id NEW)
                    (donations db) = true →
                  donor_exists NEW db = true →
                  e = foreign_key_violation)).
    { intros OLD Hold. unfold update_donation. rewrite Hold.
      destruct (decimal_fits _); simpl; [|by eexists].
      destruct (0 <? Donation.amount NEW) eqn:Hpos; simpl;
        [|eexists; split; [done|]; intros _ Hlt; apply Z.ltb_lt in Hlt; congruence].
      destruct (transaction_id_free _ _ _); simpl; [|by eexists].
      destruct (donor_exists _ _); simpl; [|by eexists].
      rewrite Hfk. simpl. by eexists. }
    assert (Hins : ∃ e, insert_donation who id NEW db = Err e).
    { destruct (insert_donation who id NEW db) as [db'|e] eqn:Hi; [|by eexists].
      exfalso. unfold insert_donation in Hi. ensured Hi. congruence. }
    split; [|split; [done|split; [done|split]]].
    + intros OLD. unfold update_project_raised_amount, update_projects.
      rewrite Hnone. by destruct (fires OLD NEW).
    + unfold after. simpl. destruct (donations db !! id) as [OLD|] eqn:Hold.
      * by destruct (Hupd OLD eq_refl) as (e & -> & _).
      * unfold update_donation. by rewrite Hold.
    + unfold after. simpl. by destruct Hins as (e & ->).
  - intros now OLD NEW ps ps' ret k Ht Hk.
    by destruct (trigger_rows _ _ _ _ _ _ k Ht) as [?|[? _]].
Qed.

Lemma missing_project_rejected_witness :
  let db := sample_db (sample_project active 20 50)
              {[ 3%N := sample_donation d_pending 40 ]} in
  let NEW := Donation.mk (Some 2%N) 9%N 4000 None (Some d_completed) (Some "")
               (Some false) (Some 0) in
  update_donation 1 3%N NEW db = Err foreign_key_violation
  ∧ after (UPDATE_donations 1 3%N NEW) db = db.
Proof.
  intros db NEW.
  destruct missing_project_rejected as [H _].
  destruct (H service_role 1 3%N NEW db eq_refl) as (_ & Hupd & _ & Hafter & _).
  split; [|exact Hafter].
  destruct (Hupd (sample_donation d_pending 40) eq_refl) as (e & He & Hfk).
  rewrite He. f_equal. apply Hfk; reflexivity.
Defined.

(** ** The constraints of the schema as invariants *)

Lemma transaction_id_free_spec self s (rows : gmap N Donation.t) :
  transaction_id_free self (Some s) rows = true ↔
  ∀ k d, rows !! k = Some d → Some k = self ∨ Donation.transaction_id d ≠ Some s.
Proof.
  unfold transaction_id_free. rewrite bool_decide_eq_true. apply map_Forall_lookup.
Qed.

Lemma insert_donation_inv who id row db db' :
  insert_donation who id row db = Ok db' →
  db' = mkDB (profiles db) (projects db) (<[id := row]> (donations db))
  ∧ decimal_fits (Donation.amount row) = true
  ∧ may_insert who row = true
  ∧ 0 < Donation.amount row
  ∧ donations db !! id = None
  ∧ transaction_id_free None (Donation.transaction_id row) (donations db) = true
  ∧ donor_exists row db = true
  ∧ project_exists row db = true.
Proof.
  unfold insert_donation. intros H. ensured H. inversion H.
  repeat split; try done; [by apply Z.ltb_lt | by apply bool_decide_eq_true in Hc2].
Qed.

Lemma trigger_Ok_checked now OLD NEW (ps ps' : gmap N Project.t) ret :
  update_project_raised_amount now OLD NEW ps = Ok (ps', ret) →
  ps' = ps ∨
  ∃ row row', fires OLD NEW = true
    ∧ ps !! Donation.project_id NEW = Some row
    ∧ row' = update_updated_at_column now (credit (Donation.amount NEW) now row)
    ∧ ps' = <[Donation.project_id NEW := row']> ps
    ∧ projects_check row' = true
    ∧ ∀ r, Project.raised_amount row' = Some r → decimal_fits r = true.
Proof.
  unfold update_project_raised_amount. destruct (fires OLD NEW) eqn:Hf.
  - destruct (update_projects _ _ _ _) as [qs|e] eqn:Hu; simpl; [|discriminate].
    intros [= <- <-].
    apply update_projects_Ok in Hu as [[_ ->]|(row & Hrow & -> & Hc & Hfit)]; [by left|].
    right. eexists row, _. repeat split; try done.
    intros r Hr. simpl in Hr. simpl in Hfit. by rewrite Hr in Hfit.
  - intros [= <- <-]. by left.
Qed.

Lemma update_donation_inv now id NEW db db' :
  update_donation now id NEW db = Ok db' →
  (donations db !! id = None ∧ db' = db) ∨
  (∃ OLD ps', donations db !! id = Some OLD
     ∧ decimal_fits (Donation.amount NEW) = true
     ∧ 0 < Donation.amount NEW
     ∧ transaction_id_free (Some id) (Donation.transaction_id NEW) (donations db) = true
     ∧ donor_exists NEW db = true
     ∧ project_exists NEW db = true
     ∧ update_project_raised_amount now OLD NEW (projects db) = Ok (ps', NEW)
     ∧ db' = mkDB (profiles db) ps' (<[id := NEW]> (donations db))).
Proof.
  unfold update_donation. destruct (donations db !! id) as [OLD|]; [|left; split; congruence].
  intros H. right. ensured H.
  destruct (update_project_raised_amount _ _ _ _) as [[ps' ret]|] eqn:Ht; [|discriminate].
  simpl in H. inversion H. exists OLD, ps'.
  pose proof (trigger_Ok _ _ _ _ _ _ Ht) as [-> _].
  repeat split; try done. by apply Z.ltb_lt.
Qed.

Lemma wf_write id NEW db (ps' : gmap N Project.t) :
  wf db →
  decimal_fits (Donation.amount NEW) = true →
  0 < Donation.amount NEW →
  transaction_id_free (Some id) (Donation.transaction_id NEW) (donations db) = true →
  donor_exists NEW db = true →
  project_exists NEW db = true →
  (∀ k, is_Some (projects db !! k) → is_Some (ps' !! k)) →
  (∀ k row, ps' !! k = Some row →
     projects_check row = true
     ∧ ∀ r, Project.raised_amount row = Some r → decimal_fits r = true) →
  wf (mkDB (profiles db) ps' (<[id := NEW]> (donations db))).
Proof.
  intros [Wa Wp Wd Wt Wr] Hfit Hpos Htx Hdonor Hproj Hdom Hrows.
  split; simpl.
  - intros i d. rewrite lookup_insert. case_decide; [by intros [= <-]|]. apply Wa.
  - intros i d. rewrite lookup_insert. case_decide.
    + intros [= <-]. apply Hdom. by apply bool_decide_eq_true in Hproj.
    + intros Hd. eapply Hdom, Wp, Hd.
  - intros i d u. rewrite lookup_insert. case_decide.
    + intros [= <-] Hu. unfold donor_exists in Hdonor. rewrite Hu in Hdonor.
      by apply bool_decide_eq_true in Hdonor.
    + apply Wd.
  - intros i j d e s. rewrite !lookup_insert.
    repeat case_decide; subst.
    + done.
    + intros [= <-] He Hs Hs'. rewrite Hs in Htx.
      destruct (proj1 (transaction_id_free_spec _ _ _) Htx j e He) as [[= ->]|]; done.
    + intros Hd [= <-] Hs Hs'. rewrite Hs' in Htx.
      destruct (proj1 (transaction_id_free_spec _ _ _) Htx i d Hd) as [[= ->]|]; done.
    + apply Wt.
  - done.
Qed.

Lemma wf_after s db : wf db → wf (after s db).
Proof.
  intros W. unfold after. destruct (exec s db) as [db'|] eqn:He; [|done].
  destruct s as [who id row | now id NEW]; simpl in He.
  - apply insert_donation_inv in He as (-> & Hfit & _ & Hpos & Hnew & Htx & Hdonor & Hproj).
    apply wf_write; try done.
    + destruct (Donation.transaction_id row) as [s|]; [|done].
      apply transaction_id_free_spec. intros k d Hd. right.
      by destruct (proj1 (transaction_id_free_spec _ _ _) Htx k d Hd).
    + apply (wf_projects db W).
  - apply update_donation_inv in He
      as [[_ ->]|(OLD & ps' & Hold & Hfit & Hpos & Htx & Hdonor & Hproj & Ht & ->)]; [done|].
    apply wf_write; try done.
    + intros k Hk. destruct (trigger_rows _ _ _ _ _ _ k Ht) as [->|(_ & ? & _ & ->)]; eauto.
    + intros k row Hrow.
      apply trigger_Ok_checked in Ht as [->|(row0 & row' & _ & _ & _ & -> & Hc & Hr)].
      * exact (wf_projects db W k row Hrow).
      * revert Hrow. rewrite lookup_insert. case_decide; [by intros [= <-]|].
        apply (wf_projects db W).
Qed.

Lemma sample_db_wf st raised goal st' amount :
  0 <= raised → raised < 10 ^ 10 → 0 < goal → 0 < amount → amount < 10 ^ 10 →
  wf (sample_db (sample_project st raised goal)
        {[ 3%N := sample_donation st' amount ]}).
Proof.
  intros Hr0 Hr1 Hg Ha0 Ha1. unfold sample_db. split; simpl.
  - intros id d [<- <-]%lookup_singleton_Some. simpl. unfold decimal_fits, hundredths.
    split; [lia|]. apply Z.ltb_lt. lia.
  - intros id d [<- <-]%lookup_singleton_Some. simpl. by rewrite lookup_singleton_eq.
  - intros id d u [<- <-]%lookup_singleton_Some [= <-]. set_solver.
  - intros i j d e s [<- <-]%lookup_singleton_Some [<- <-]%lookup_singleton_Some. done.
  - intros k row [<- <-]%lookup_singleton_Some. unfold projects_check, sample_project.
    simpl. split.
    + rewrite (proj2 (Z.ltb_lt 0 (hundredths goal))) by (unfold hundredths; lia).
      by rewrite (proj2 (Z.leb_le 0 (hundredths raised))) by (unfold hundredths; lia).
    + intros r [= <-]. unfold decimal_fits, hundredths. apply Z.ltb_lt. lia.
Qed.

(** ** Completing donations *)

(** Rewriting a stored donation with another status passes every constraint
    of donations again. *)
Lemma rewrite_passes id d s db :
  wf db → donations db !! id = Some d →
  let NEW := Donation.with_status s d in
  decimal_fits (Donation.amount NEW) = true
  ∧ (0 <? Donation.amount NEW) = true
  ∧ transaction_id_free (Some id) (Donation.transaction_id NEW) (donations db) = true
  ∧ donor_exists NEW db = true
  ∧ project_exists NEW db = true.
Proof.
  intros W Hd NEW. destruct (wf_amount db W id d Hd) as [Hpos Hfit].
  split; [done|]. split; [by apply Z.ltb_lt|]. split; [|split].
  - simpl. destruct (Donation.transaction_id d) as [tx|] eqn:Htx; [|done].
    apply transaction_id_free_spec. intros k e He.
    destruct (decide (Donation.transaction_id e = Some tx)) as [Heq|]; [|by right].
    left. f_equal. by apply (wf_transaction_id db W k id e d tx).
  - unfold donor_exists. simpl. destruct (Donation.donor_id d) as [u|] eqn:Hu; [|done].
    apply bool_decide_eq_true. by apply (wf_donor_id db W id d u).
  - unfold project_exists. simpl. apply bool_decide_eq_true.
    by apply (wf_project_id db W id d).
Qed.

(** Completing a stored donation that is in another status: the statement is
    accepted as soon as the new total fits the column. *)
Lemma update_donation_completes now id d db row r :
  wf db →
  donations db !! id = Some d →
  (∃ s, Donation.status d = Some s ∧ s ≠ d_completed) →
  projects db !! Donation.project_id d = Some row →
  Project.raised_amount row = Some r →
  decimal_fits (r + Donation.amount d) = true →
  update_donation now id (Donation.with_status (Some d_completed) d) db =
    Ok (mkDB (profiles db)
          (<[Donation.project_id d :=
               update_updated_at_column now (credit (Donation.amount d) now row)]>
             (projects db))
          (<[id := Donation.with_status (Some d_completed) d]> (donations db))).
Proof.
  intros W Hd Hs Hrow Hr Hfit.
  destruct (rewrite_passes id d (Some d_completed) db W Hd) as (H1 & H2 & H3 & H4 & H5).
  unfold update_donation. rewrite Hd, H1, H2, H3, H4, H5. simpl.
  rewrite (trigger_credits now d (Donation.with_status (Some d_completed) d)
             (projects db) row r); try done.
  - by apply fires_spec.
  - exact (proj1 (wf_projects db W _ row Hrow)).
  - exact (proj1 (wf_amount db W id d Hd)).
Qed.



Lemma amounts_nonneg items db :
  wf db →
  Forall (fun item : Z * N * Donation.t => donations db !! item.1.2 = Some (item.2)) items →
  0 <= amounts items.
Proof.
  intros W. induction 1 as [|[[now id] d] items Hd _ IH]; simpl; [lia|].
  pose proof (wf_amount db W id d Hd) as [? _]. lia.
Qed.

Lemma amounts_perm items items' : items ≡ₚ items' → amounts items = amounts items'.
Proof. induction 1; simpl; lia. Qed.

Lemma completions_total items : ∀ db k row r,
  wf db →
  projects db !! k = Some row →
  Project.raised_amount row = Some r →
  completable k items db →
  decimal_fits (r + amounts items) = true →
  ∃ row',
    projects (after_all (map complete items) db) !! k = Some row'
    ∧ Project.raised_amount row' = Some (r + amounts items)
    ∧ Project.status row' =
        match items with
        | [] => Project.status row
        | _ => if Project.goal_amount row <=? r + amounts items
               then Some fully_funded
               else Project.status row
        end.
Proof.
  induction items as [|[[now id] d] items IH]; intros db k row r W Hrow Hr [Hnd Hall] Hfit.
  - exists row. simpl. split; [done|]. split; [|done]. rewrite Hr. f_equal. lia.
  - apply NoDup_cons in Hnd as [Hid Hnd]. apply Forall_cons in Hall as [(Hd & Hk & Hs) Hall].
    simpl in Hd, Hk, Hs, Hid.
    assert (Hrest : 0 <= amounts items).
    { apply (amounts_nonneg items db W). eapply Forall_impl; [exact Hall|]. by intros ? [? _]. }
    pose proof (wf_amount db W id d Hd) as [Hpos _].
    pose proof (projects_check_raised row r Hr (proj1 (wf_projects db W k row Hrow))) as Hr0.
    assert (Hfit1 : decimal_fits (r + Donation.amount d) = true).
    { revert Hfit. unfold decimal_fits. rewrite !Z.ltb_lt. simpl. lia. }
    subst k.
    pose proof (update_donation_completes now id d db row r W Hd Hs Hrow Hr Hfit1) as Hu.
    set (row1 := update_updated_at_column now (credit (Donation.amount d) now row)) in *.
    set (db1 := mkDB _ _ _) in Hu.
    assert (Hafter : after (complete (now, id, d)) db = db1).
    { unfold after, complete. simpl. by rewrite Hu. }
    simpl. rewrite Hafter.
    destruct (IH db1 (Donation.project_id d) row1 (r + Donation.amount d))
      as (row' & Hrow' & Hr' & Hst').
    + rewrite <- Hafter. by apply wf_after.
    + apply lookup_insert_eq.
    + simpl. by rewrite Hr.
    + split; [done|]. apply Forall_forall. intros [[now' id'] d'] Hin.
      pose proof (proj1 (Forall_forall _ _) Hall _ Hin) as (Hd' & Hk' & Hs').
      simpl in Hd', Hk', Hs'. simpl. split; [|done].
      rewrite lookup_insert_ne; [done|]. intros <-. apply Hid.
      apply list_elem_of_fmap. by exists (now', id, d').
    + revert Hfit. simpl. intros <-. f_equal. lia.
    + exists row'. split; [done|]. split; [rewrite Hr'; simpl; f_equal; lia|].
      rewrite Hst'. simpl. rewrite Hr. simpl.
      replace (r + Donation.amount d + amounts items)
        with (r + (Donation.amount d + amounts items)) by lia.
      destruct items as [|item items].
      * simpl. rewrite Z.add_0_r.
        by destruct (Project.goal_amount row <=? r + Donation.amount d).
      * destruct (Project.goal_amount row <=? _) eqn:Hg; [done|].
        apply Z.leb_gt in Hg.
        rewrite (proj2 (Z.leb_gt (Project.goal_amount row) (r + Donation.amount d))); [done|].
        lia.
Qed.

(** X2.  Completing, one after the other, any number of distinct stored
    donations to one project (each UPDATE moves one of them from another
    status to completed) adds exactly the sum of their amounts to the
    project's raised_amount, provided the final total fits decimal(12, 2);
    and when at least one donation was completed the status ends as
    fully_funded if the final total reaches goal_amount and as it was
    otherwise. *)
Theorem completions_add_up items db k row r :
  wf db →
  projects db !! k = Some row →
  Project.raised_amount row = Some r →
  completable k items db →
  decimal_fits (r + amounts items) = true →
  ∃ row',
    projects (after_all (map complete items) db) !! k = Some row'
    ∧ Project.raised_amount row' = Some (r + amounts items)
    ∧ Project.status row' =
        match items with
        | [] => Project.status row
        | _ => if Project.goal_amount row <=? r + amounts items
               then Some fully_funded
               else Project.status row
        end.
Proof. apply completions_total. Qed.

(** X3.  The order in which donations complete does not matter: two
    sequences that complete the same donations of a project in different
    orders end with the same raised_amount and the same status. *)
Theorem completion_order_is_irrelevant items items' db k row r :
  wf db →
  projects db !! k = Some row →
  Project.raised_amount row = Some r →
  completable k items db →
  decimal_fits (r + amounts items) = true →
  items ≡ₚ items' →
  ∃ row1 row2,
    projects (after_all (map complete items) db) !! k = Some row1
    ∧ projects (after_all (map complete items') db) !! k = Some row2
    ∧ Project.raised_amount row1 = Project.raised_amount row2
    ∧ Project.status row1 = Project.status row2.
Proof.
  intros W Hrow Hr [Hnd Hall] Hfit Hperm.
  assert (Hc' : completable k items' db).
  { split; [by rewrite <- Hperm | by rewrite <- Hperm]. }
  pose proof (amounts_perm _ _ Hperm) as Hsum.
  destruct (completions_total items db k row r) as (row1 & H1 & Hr1 & Hs1); try done.
  destruct (completions_total items' db k row r) as (row2 & H2 & Hr2 & Hs2); try done.
  { by rewrite <- Hsum. }
  exists row1, row2. split; [done|]. split; [done|].
  split; [by rewrite Hr1, Hr2, Hsum|]. rewrite Hs1, Hs2, Hsum.
  destruct items, items'; try done.
  - by apply Permutation_nil_cons in Hperm.
  - symmetry in Hperm. by apply Permutation_nil_cons in Hperm.
Qed.

Lemma sample_db2_wf st raised goal st1 a1 st2 a2 :
  0 <= raised → raised < 10 ^ 10 → 0 < goal →
  0 < a1 → a1 < 10 ^ 10 → 0 < a2 → a2 < 10 ^ 10 →
  wf (sample_db (sample_project st raised goal)
        {[ 3%N := sample_donation st1 a1; 4%N := sample_donation st2 a2 ]}).
Proof.
  intros Hr0 Hr1 Hg Ha0 Ha1 Hb0 Hb1.
  assert (Hrows : ∀ id d,
            ({[ 3%N := sample_donation st1 a1; 4%N := sample_donation st2 a2 ]}
               : gmap N Donation.t) !! id = Some d →
            d = sample_donation st1 a1 ∨ d = sample_donation st2 a2).
  { intros id d [[_ <-]|[_ [_ <-]%lookup_singleton_Some]]%lookup_insert_Some; auto. }
  unfold sample_db. split; simpl.
  - intros id d Hd. destruct (Hrows id d Hd) as [->| ->]; simpl;
      unfold decimal_fits, hundredths; (split; [lia|]); apply Z.ltb_lt; lia.
  - intros id d Hd. destruct (Hrows id d Hd) as [->| ->]; simpl;
      by rewrite lookup_singleton_eq.
  - intros id d u Hd. destruct (Hrows id d Hd) as [->| ->]; intros [= <-]; set_solver.
  - intros i j d e s Hd. destruct (Hrows i d Hd) as [->| ->]; intros _; discriminate.
  - intros k row [<- <-]%lookup_singleton_Some. unfold projects_check, sample_project.
    simpl. split.
    + rewrite (proj2 (Z.ltb_lt 0 (hundredths goal))) by (unfold hundredths; lia).
      by rewrite (proj2 (Z.leb_le 0 (hundredths raised))) by (unfold hundredths; lia).
    + intros r [= <-]. unfold decimal_fits, hundredths. apply Z.ltb_lt. lia.
Qed.

Lemma sample_completable :
  completable 7%N
    [(1, 3%N, sample_donation d_pending 60); (2, 4%N, sample_donation d_pending 50)]
    (sample_db (sample_project active 0 100)
       {[ 3%N := sample_donation d_pending 60; 4%N := sample_donation d_pending 50 ]}).
Proof.
  split.
  - simpl. apply NoDup_cons. split; [|apply NoDup_singleton].
    by intros [=]%list_elem_of_singleton.
  - repeat apply Forall_cons_2; try apply Forall_nil_2;
      (split; [reflexivity|]; split; [reflexivity|]; by exists d_pending).
Qed.

Lemma completions_add_up_witness :
  ∃ row',
    projects (after_all
        (map complete
           [(1, 3%N, sample_donation d_pending 60); (2, 4%N, sample_donation d_pending 50)])
        (sample_db (sample_project active 0 100)
           {[ 3%N := sample_donation d_pending 60;
              4%N := sample_donation d_pending 50 ]})) !! 7%N = Some row'
    ∧ Project.raised_amount row' = Some 11000
    ∧ Project.status row' = Some fully_funded.
Proof.
  apply (completions_add_up
           [(1, 3%N, sample_donation d_pending 60); (2, 4%N, sample_donation d_pending 50)]
           _ 7%N (sample_project active 0 100) 0).
  - apply sample_db2_wf; lia.
  - reflexivity.
  - reflexivity.
  - apply sample_completable.
  - reflexivity.
Defined.

Lemma completion_order_is_irrelevant_witness :
  ∃ row1 row2,
    projects (after_all
        (map complete
           [(1, 3%N, sample_donation d_pending 60); (2, 4%N, sample_donation d_pending 50)])
        (sample_db (sample_project active 0 100)
           {[ 3%N := sample_donation d_pending 60;
              4%N := sample_donation d_pending 50 ]})) !! 7%N = Some row1
    ∧ projects (after_all
        (map complete
           [(2, 4%N, sample_donation d_pending 50); (1, 3%N, sample_donation d_pending 60)])
        (sample_db (sample_project active 0 100)
           {[ 3%N := sample_donation d_pending 60;
              4%N := sample_donation d_pending 50 ]})) !! 7%N = Some row2
    ∧ Project.raised_amount row1 = Project.raised_amount row2
    ∧ Project.status row1 = Project.status row2.
Proof.
  apply (completion_order_is_irrelevant
           [(1, 3%N, sample_donation d_pending 60); (2, 4%N, sample_donation d_pending 50)]
           [(2, 4%N, sample_donation d_pending 50); (1, 3%N, sample_donation d_pending 60)]
           _ 7%N (sample_project active 0 100) 0).
  - apply sample_db2_wf; lia.
  - reflexivity.
  - reflexivity.
  - apply sample_completable.
  - reflexivity.
  - apply Permutation_swap.
Defined.

(** ** raised_amount against the total of completed donations *)

Lemma counted_comm k (d1 d2 : Donation.t) (y : Z) :
  counted k d1 + (counted k d2 + y) = counted k d2 + (counted k d1 + y).
Proof. lia. Qed.

Lemma completed_total_new k id d (rows : gmap N Donation.t) :
  rows !! id = None →
  completed_total k (<[id := d]> rows) = counted k d + completed_total k rows.
Proof.
  intros Hnew. unfold completed_total.
  rewrite map_fold_insert_L; [done| |done]. intros. apply counted_comm.
Qed.

Lemma completed_total_rewrite k id OLD NEW (rows : gmap N Donation.t) :
  rows !! id = Some OLD →
  completed_total k (<[id := NEW]> rows)
    = completed_total k rows - counted k OLD + counted k NEW.
Proof.
  intros Hold. rewrite <- insert_delete_eq.
  rewrite completed_total_new by apply lookup_delete_eq.
  unfold completed_total at 2.
  rewrite (map_fold_delete_L _ _ id OLD rows); [|intros; apply counted_comm|done].
  fold (completed_total k (delete id rows)). lia.
Qed.

Lemma counted_other k d : Donation.project_id d ≠ k → counted k d = 0.
Proof. intros Hk. unfold counted. rewrite bool_decide_eq_false_2; [done|]. by intros [_ ?]. Qed.

Lemma counted_completed d :
  Donation.status d = Some d_completed → counted (Donation.project_id d) d = Donation.amount d.
Proof. intros Hs. unfold counted. by rewrite bool_decide_eq_true_2. Qed.

Lemma counted_not_completed k d :
  Donation.status d ≠ Some d_completed → counted k d = 0.
Proof. intros Hs. unfold counted. rewrite bool_decide_eq_false_2; [done|]. by intros [? _]. Qed.

(** The trigger function, when it fires on an existing project and succeeds,
    has replaced that project's row by the credited one. *)
Lemma trigger_fired now OLD NEW (ps ps' : gmap N Project.t) ret row :
  fires OLD NEW = true →
  ps !! Donation.project_id NEW = Some row →
  update_project_raised_amount now OLD NEW ps = Ok (ps', ret) →
  ps' = <[Donation.project_id NEW :=
            update_updated_at_column now (credit (Donation.amount NEW) now row)]> ps.
Proof.
  intros Hf Hrow. unfold update_project_raised_amount. rewrite Hf.
  destruct (update_projects _ _ _ _) as [qs|e] eqn:Hu; simpl; [|discriminate].
  intros [= <- _].
  apply update_projects_Ok in Hu as [[Hnone _]|(row0 & Hrow0 & -> & _)]; [congruence|].
  rewrite Hrow in Hrow0. by injection Hrow0 as <-.
Qed.

(** X4.  Completing a stored donation keeps raised_amount in step with the
    completed donations: for every project, raised_amount minus the total of
    its completed donations is the same after the UPDATE that moves one
    donation from another status to completed as it was before, whether the
    UPDATE is accepted or not. *)
Theorem completion_keeps_the_ledger_in_step now id d db k row r :
  wf db →
  donations db !! id = Some d →
  (∃ s, Donation.status d = Some s ∧ s ≠ d_completed) →
  projects db !! k = Some row →
  Project.raised_amount row = Some r →
  ∃ row' r',
    projects (after (complete (now, id, d)) db) !! k = Some row'
    ∧ Project.raised_amount row' = Some r'
    ∧ r' - completed_total k (donations (after (complete (now, id, d)) db))
      = r - completed_total k (donations db).
Proof.
  intros W Hd (s & Hs & Hne) Hrow Hr. unfold after, complete. simpl.
  destruct (update_donation _ _ _ _) as [db'|] eqn:Hu; [|by exists row, r].
  apply update_donation_inv in Hu
    as [[Hnone _]|(OLD & ps' & Hold & _ & _ & _ & _ & _ & Ht & ->)]; [congruence|].
  rewrite Hd in Hold. injection Hold as <-. simpl.
  rewrite (completed_total_rewrite k id d) by done.
  rewrite (counted_not_completed k d) by congruence.
  assert (Hf : fires d (Donation.with_status (Some d_completed) d) = true).
  { apply fires_spec. split; [done|]. by exists s. }
  destruct (decide (Donation.project_id d = k)) as [<-|Hk].
  - apply (trigger_fired _ _ _ _ _ _ row Hf Hrow) in Ht. subst ps'.
    eexists _, _. rewrite lookup_insert_eq. split; [done|]. simpl. rewrite Hr. simpl.
    split; [done|]. rewrite (counted_completed (Donation.with_status _ d)) by done.
    simpl. lia.
  - exists row, r. split.
    + destruct (trigger_rows _ _ _ _ _ _ k Ht) as [->|[? _]]; [done|]. by simpl in *.
    + split; [done|]. rewrite counted_other by done. lia.
Qed.

Lemma completion_keeps_the_ledger_in_step_witness :
  ∃ row' r',
    projects (after (complete (1, 3%N, sample_donation d_pending 40))
                (sample_db (sample_project active 20 50)
                   {[ 3%N := sample_donation d_pending 40 ]})) !! 7%N = Some row'
    ∧ Project.raised_amount row' = Some r'
    ∧ r' - completed_total 7%N
             (donations (after (complete (1, 3%N, sample_donation d_pending 40))
                (sample_db (sample_project active 20 50)
                   {[ 3%N := sample_donation d_pending 40 ]})))
      = 2000 - completed_total 7%N
                 (donations (sample_db (sample_project active 20 50)
                               {[ 3%N := sample_donation d_pending 40 ]})).
Proof.
  apply (completion_keeps_the_ledger_in_step 1 3%N (sample_donation d_pending 40)
           (sample_db (sample_project active 20 50)
              {[ 3%N := sample_donation d_pending 40 ]})
           7%N (sample_project active 20 50) 2000).
  - apply sample_db_wf; lia.
  - reflexivity.
  - by exists d_pending.
  - reflexivity.
  - reflexivity.
Defined.

(** X5.  A refund is always accepted and never debits: the UPDATE that moves
    a stored completed donation to refunded succeeds, leaves the projects
    table as it is and lowers the completed total of the donation's project
    by the amount, so raised_amount then exceeds that total by the amount
    more than before. *)
Theorem refund_leaves_raised_amount_behind now id d db :
  wf db →
  donations db !! id = Some d →
  Donation.status d = Some d_completed →
  ∃ db',
    update_donation now id (Donation.with_status (Some d_refunded) d) db = Ok db'
    ∧ projects db' = projects db
    ∧ donations db' !! id = Some (Donation.with_status (Some d_refunded) d)
    ∧ completed_total (Donation.project_id d) (donations db')
      = completed_total (Donation.project_id d) (donations db) - Donation.amount d.
Proof.
  intros W Hd Hs.
  destruct (rewrite_passes id d (Some d_refunded) db W Hd) as (H1 & H2 & H3 & H4 & H5).
  eexists. unfold update_donation. rewrite Hd, H1, H2, H3, H4, H5. simpl.
  split; [reflexivity|]. simpl. split; [done|]. split; [apply lookup_insert_eq|].
  rewrite (completed_total_rewrite _ id d) by done.
  rewrite counted_completed by done.
  rewrite (counted_not_completed _ (Donation.with_status _ d)) by done. lia.
Qed.

Lemma refund_leaves_raised_amount_behind_witness :
  ∃ db',
    update_donation 2 3%N (sample_donation d_refunded 40)
      (sample_db (sample_project active 60 100)
         {[ 3%N := sample_donation d_completed 40 ]}) = Ok db'
    ∧ projects db' = projects (sample_db (sample_project active 60 100)
                                 {[ 3%N := sample_donation d_completed 40 ]})
    ∧ donations db' !! 3%N = Some (sample_donation d_refunded 40)
    ∧ completed_total 7%N (donations db')
      = completed_total 7%N
          (donations (sample_db (sample_project active 60 100)
                        {[ 3%N := sample_donation d_completed 40 ]})) - 4000.
Proof.
  apply (refund_leaves_raised_amount_behind 2 3%N (sample_donation d_completed 40)
           (sample_db (sample_project active 60 100)
              {[ 3%N := sample_donation d_completed 40 ]})).
  - apply sample_db_wf; lia.
  - reflexivity.
  - reflexivity.
Defined.

(** X6.  Every donation the modal records opens a gap: when handleDonate
    succeeds, the completed total of the project grows by the stored amount,
    which is positive, while the projects table, raised_amount included, is
    what it was. *)
Theorem modal_donation_is_not_counted user projectId x message isAnonymous
    transaction_id id now db db' :
  handleDonate user projectId x message isAnonymous transaction_id id now db
    = (db', succeeded) →
  ∃ q, x = Finite q
    ∧ 0 < to_decimal q
    ∧ projects db' = projects db
    ∧ completed_total projectId (donations db')
      = completed_total projectId (donations db) + to_decimal q.
Proof.
  unfold handleDonate. destruct user as [user_id|]; [|discriminate].
  destruct (isNaN x || js_le_0 x); [discriminate|].
  destruct x as [|negative|q]; try discriminate.
  destruct (insert_donation _ _ _ _) as [db1|e] eqn:Hi; [|discriminate].
  intros [= <-]. exists q. split; [done|].
  apply insert_donation_inv in Hi as (-> & _ & _ & Hpos & Hnew & _).
  simpl in Hpos. split; [done|]. split; [done|]. simpl.
  rewrite completed_total_new by done.
  unfold counted. simpl. rewrite bool_decide_eq_true_2 by done. lia.
Qed.

Lemma modal_donation_is_not_counted_witness :
  ∃ q, Finite (60 # 1) = Finite q
    ∧ 0 < to_decimal q
    ∧ projects (handleDonate (Some 2%N) 7%N (Finite (60 # 1)) "" false "txn_1" 3%N 1
                  (sample_db (sample_project active 0 50) ∅)).1
      = projects (sample_db (sample_project active 0 50) ∅)
    ∧ completed_total 7%N
        (donations (handleDonate (Some 2%N) 7%N (Finite (60 # 1)) "" false "txn_1" 3%N 1
                      (sample_db (sample_project active 0 50) ∅)).1)
      = completed_total 7%N (donations (sample_db (sample_project active 0 50) ∅))
        + to_decimal q.
Proof.
  apply (modal_donation_is_not_counted (Some 2%N) 7%N (Finite (60 # 1)) "" false
           "txn_1" 3%N 1 (sample_db (sample_project active 0 50) ∅)).
  vm_compute. reflexivity.
Defined.

(** ** Edges of the ledger update *)

(** X7.  raised_amount is bounded by its column: a stored donation whose
    amount would take the project's raised_amount to 10^10 or more cannot be
    completed.  The UPDATE fails with numeric_value_out_of_range inside the
    trigger and the database stays as it was. *)
Theorem completion_refused_beyond_the_column now id d db row r :
  wf db →
  donations db !! id = Some d →
  (∃ s, Donation.status d = Some s ∧ s ≠ d_completed) →
  projects db !! Donation.project_id d = Some row →
  Project.raised_amount row = Some r →
  10 ^ 12 <= r + Donation.amount d →
  update_donation now id (Donation.with_status (Some d_completed) d) db
    = Err numeric_value_out_of_range
  ∧ after (complete (now, id, d)) db = db.
Proof.
  intros W Hd Hs Hrow Hr Hbig.
  destruct (rewrite_passes id d (Some d_completed) db W Hd) as (H1 & H2 & H3 & H4 & H5).
  assert (Hf : fires d (Donation.with_status (Some d_completed) d) = true)
    by by apply fires_spec.
  pose proof (projects_check_raised row r Hr (proj1 (wf_projects db W _ row Hrow))) as Hr0.
  pose proof (wf_amount db W id d Hd) as [Hpos _].
  assert (Hu : update_donation now id (Donation.with_status (Some d_completed) d) db
               = Err numeric_value_out_of_range).
  { unfold update_donation. rewrite Hd, H1, H2, H3, H4, H5.
    unfold update_project_raised_amount. rewrite Hf.
    unfold update_projects. change (Donation.project_id (Donation.with_status _ d))
      with (Donation.project_id d). rewrite Hrow. simpl. rewrite Hr. simpl.
    replace (decimal_fits (r + Donation.amount d)) with false; [done|].
    symmetry. apply Z.ltb_ge. lia. }
  split; [done|]. unfold after, complete. simpl. by rewrite Hu.
Qed.

Lemma completion_refused_beyond_the_column_witness :
  update_donation 1 3%N (sample_donation d_completed 40)
    (sample_db (sample_project active 9999999990 50)
       {[ 3%N := sample_donation d_pending 40 ]})
    = Err numeric_value_out_of_range
  ∧ after (complete (1, 3%N, sample_donation d_pending 40))
      (sample_db (sample_project active 9999999990 50)
         {[ 3%N := sample_donation d_pending 40 ]})
    = sample_db (sample_project active 9999999990 50)
        {[ 3%N := sample_donation d_pending 40 ]}.
Proof.
  apply (completion_refused_beyond_the_column 1 3%N (sample_donation d_pending 40)
           (sample_db (sample_project active 9999999990 50)
              {[ 3%N := sample_donation d_pending 40 ]})
           (sample_project active 9999999990 50) 999999999000).
  - apply sample_db_wf; lia.
  - reflexivity.
  - by exists d_pending.
  - reflexivity.
  - reflexivity.
  - vm_compute. discriminate.
Defined.

(** X8.  The status column of donations is nullable, and OLD.status !=
    'completed' is NULL, not TRUE, for a NULL status: a stored donation whose
    status is NULL is completed by an accepted UPDATE without any credit, the
    projects table staying as it was. *)
Theorem null_status_completes_without_credit now id d db :
  wf db →
  donations db !! id = Some d →
  Donation.status d = None →
  update_donation now id (Donation.with_status (Some d_completed) d) db
    = Ok (mkDB (profiles db) (projects db)
            (<[id := Donation.with_status (Some d_completed) d]> (donations db))).
Proof.
  intros W Hd Hs.
  destruct (rewrite_passes id d (Some d_completed) db W Hd) as (H1 & H2 & H3 & H4 & H5).
  unfold update_donation. rewrite Hd, H1, H2, H3, H4, H5.
  unfold update_project_raised_amount, fires. by rewrite Hs.
Qed.

Lemma null_status_completes_without_credit_witness :
  let d := Donation.mk (Some 2%N) 7%N 4000 None None None None None in
  let db := mkDB {[ 2%N ]} {[ 7%N := sample_project active 20 50 ]} {[ 3%N := d ]} in
  update_donation 1 3%N (Donation.with_status (Some d_completed) d) db
  = Ok (mkDB (profiles db) (projects db)
          (<[ 3%N := Donation.with_status (Some d_completed) d ]> (donations db))).
Proof.
  intros d db. apply (null_status_completes_without_credit 1 3%N d db).
  - split; simpl.
    + by intros id d' [<- <-]%lookup_singleton_Some.
    + intros id d' [<- <-]%lookup_singleton_Some. by rewrite lookup_singleton_eq.
    + intros id d' u [<- <-]%lookup_singleton_Some [= <-]. by apply elem_of_singleton.
    + by intros i j d1 d2 s [<- <-]%lookup_singleton_Some [<- <-]%lookup_singleton_Some.
    + intros k row [<- <-]%lookup_singleton_Some. split; [done|]. by intros r [= <-].
  - reflexivity.
  - reflexivity.
Defined.

(** X9.  raised_amount is nullable too, and NULL + NEW.amount is NULL: for a
    project whose raised_amount is NULL the trigger, when it fires, writes
    NULL back, takes the ELSE branch of the CASE whatever the amount and the
    goal, and changes nothing but updated_at. *)
Theorem null_raised_amount_is_never_credited now OLD NEW (ps : gmap N Project.t) row :
  fires OLD NEW = true →
  ps !! Donation.project_id NEW = Some row →
  Project.raised_amount row = None →
  projects_check row = true →
  ∃ row',
    update_project_raised_amount now OLD NEW ps
      = Ok (<[Donation.project_id NEW := row']> ps, NEW)
    ∧ Project.raised_amount row' = None
    ∧ Project.status row' = Project.status row
    ∧ Project.updated_at row' = Some now
    ∧ same_other_columns row row'.
Proof.
  intros Hf Hrow Hr Hc.
  exists (update_updated_at_column now (credit (Donation.amount NEW) now row)).
  unfold update_project_raised_amount, update_projects. rewrite Hf, Hrow. simpl.
  rewrite Hr. simpl.
  replace (projects_check _) with true.
  - simpl. by repeat split.
  - symmetry. revert Hc. unfold projects_check, valid_date_range. simpl. by rewrite Hr.
Qed.

Lemma null_raised_amount_is_never_credited_witness :
  let row := Project.mk 1%N "t" "d" 5000 None (Some active) None "l" None None None
               None None in
  let NEW := sample_donation d_completed 40 in
  let ps : gmap N Project.t := {[ 7%N := row ]} in
  ∃ row',
    update_project_raised_amount 1 (sample_donation d_pending 40) NEW ps
      = Ok (<[Donation.project_id NEW := row']> ps, NEW)
    ∧ Project.raised_amount row' = None
    ∧ Project.status row' = Project.status row
    ∧ Project.updated_at row' = Some 1
    ∧ same_other_columns row row'.
Proof.
  intros row NEW ps.
  apply (null_raised_amount_is_never_credited 1 (sample_donation d_pending 40) NEW ps row);
    reflexivity.
Defined.

(** ** The amount the modal stores *)

Lemma to_decimal_pos q : Z.pos (Qden q) <= 200 * Qnum q → 0 < to_decimal q.
Proof.
  intros H. unfold to_decimal. pose proof (Pos2Z.is_pos (Qden q)) as Hd.
  rewrite Z.sgn_pos by lia. rewrite Z.abs_eq by lia.
  assert (1 <= (2 * (Qnum q * 100) + Z.pos (Qden q)) / (2 * Z.pos (Qden q)));
    [|lia].
  apply Z.div_le_lower_bound; lia.
Qed.

Lemma to_decimal_tiny q :
  0 < Qnum q → 200 * Qnum q < Z.pos (Qden q) → to_decimal q = 0.
Proof.
  intros Hpos H. unfold to_decimal.
  rewrite Z.sgn_pos by lia. rewrite Z.abs_eq by lia.
  rewrite Z.div_small; lia.
Qed.

(** X10.  What it takes for the modal to record a donation: a signed-in user
    with a profile, an existing project, a fresh key and transaction id, and
    an amount of at least half a hundredth whose rounding fits the column.
    Nothing else is asked, in particular not that the project is active; the
    row stored carries the user as donor, the rounded amount and status
    completed. *)
Theorem modal_donation_accepted u projectId q message isAnonymous transaction_id
    id now db :
  u ∈ profiles db →
  is_Some (projects db !! projectId) →
  donations db !! id = None →
  (∀ k d, donations db !! k = Some d → Donation.transaction_id d ≠ Some transaction_id) →
  Z.pos (Qden q) <= 200 * Qnum q →
  to_decimal q < 10 ^ 12 →
  handleDonate (Some u) projectId (Finite q) message isAnonymous transaction_id id now db
    = (mkDB (profiles db) (projects db)
         (<[id := Donation.mk (Some u) projectId (to_decimal q) (Some transaction_id)
                    (Some d_completed) (Some message) (Some isAnonymous) (Some now)]>
            (donations db)),
       succeeded).
Proof.
  intros Hu Hp Hid Htx Hq Hfit. pose proof (to_decimal_pos q Hq) as Hpos.
  pose proof (Pos2Z.is_pos (Qden q)) as Hd.
  unfold handleDonate. simpl.
  rewrite (proj2 (Z.leb_gt (Qnum q) 0)) by lia.
  unfold insert_donation. simpl.
  replace (decimal_fits (to_decimal q)) with true
    by (symmetry; apply Z.ltb_lt; lia).
  rewrite bool_decide_eq_true_2 by done.
  rewrite (proj2 (Z.ltb_lt 0 (to_decimal q))) by done.
  rewrite bool_decide_eq_true_2 by done.
  rewrite bool_decide_eq_true_2 by (apply map_Forall_lookup; intros k d Hk; right; eauto).
  unfold donor_exists, project_exists. simpl.
  by rewrite !bool_decide_eq_true_2 by done.
Qed.

Lemma modal_donation_accepted_witness :
  let db := sample_db (sample_project cancelled 0 50) ∅ in
  handleDonate (Some 2%N) 7%N (Finite (1 # 200)) "" true "txn_1" 3%N 1 db
    = (mkDB (profiles db) (projects db)
         (<[ 3%N := Donation.mk (Some 2%N) 7%N (to_decimal (1 # 200)) (Some "txn_1")
                      (Some d_completed) (Some "") (Some true) (Some 1) ]>
            (donations db)),
       succeeded).
Proof.
  intros db.
  apply (modal_donation_accepted 2%N 7%N (1 # 200) "" true "txn_1" 3%N 1 db).
  - apply elem_of_union_r. by apply elem_of_singleton.
  - by eexists.
  - reflexivity.
  - intros k d Hk. unfold db in Hk. simpl in Hk. by rewrite lookup_empty in Hk.
  - vm_compute. discriminate.
  - reflexivity.
Defined.

(** X11.  The modal's own check and the database's disagree below half a
    hundredth: an amount that is positive, so that handleDonate sends it, but
    rounds to 0.00 in the column is refused by CHECK (amount > 0); the modal
    shows the failure and the database is unchanged. *)
Theorem modal_donation_below_half_a_hundredth u projectId q message isAnonymous
    transaction_id id now db :
  0 < Qnum q →
  200 * Qnum q < Z.pos (Qden q) →
  handleDonate (Some u) projectId (Finite q) message isAnonymous transaction_id id now db
    = (db, failed check_violation).
Proof.
  intros Hpos Hq. unfold handleDonate. simpl.
  rewrite (proj2 (Z.leb_gt (Qnum q) 0)) by lia.
  unfold insert_donation. simpl. rewrite (to_decimal_tiny q) by done. simpl.
  by rewrite bool_decide_eq_true_2 by done.
Qed.

Lemma modal_donation_below_half_a_hundredth_witness :
  handleDonate (Some 2%N) 7%N (Finite (1 # 1000)) "" false "txn_1" 3%N 1
      (sample_db (sample_project active 0 50) ∅)
    = (sample_db (sample_project active 0 50) ∅, failed check_violation).
Proof.
  apply (modal_donation_below_half_a_hundredth 2%N 7%N (1 # 1000)); reflexivity.
Defined.

(** X12.  The rounding to the column's two decimals is exact on amounts
    written with at most two decimals, and otherwise moves the amount by at
    most half a hundredth. *)
Theorem to_decimal_is_nearest :
  (∀ k, to_decimal (k # 100) = k)
  ∧ (∀ q, 2 * Z.abs (to_decimal q * Z.pos (Qden q) - 100 * Qnum q) <= Z.pos (Qden q)).
Proof.
  split.
  - intros k. unfold to_decimal. simpl.
    replace (2 * Z.abs (k * 100) + 100) with (Z.abs k * 200 + 100) by lia.
    rewrite Z.div_add_l by lia. change (100 / 200) with 0.
    rewrite Z.add_0_r. destruct k; simpl; lia.
  - intros q. unfold to_decimal. pose proof (Pos2Z.is_pos (Qden q)) as Hd.
    set (d := Z.pos (Qden q)) in *. set (n := Qnum q * 100).
    pose proof (Z.div_mod (2 * Z.abs n + d) (2 * d)) as Hdm.
    pose proof (Z.mod_pos_bound (2 * Z.abs n + d) (2 * d)) as Hmod.
    set (m := (2 * Z.abs n + d) / (2 * d)) in *.
    assert (Hm : -d <= 2 * (m * d - Z.abs n) <= d) by lia.
    replace (100 * Qnum q) with n by (unfold n; lia).
    destruct (Z.sgn_spec n) as [[Hn ->]|[[Hn ->]|[Hn ->]]]; lia.
Qed.

(** ** The admin panel and the policies on projects *)

Lemma update_policy_select roles uid row :
  projects_update_policy roles uid row = true →
  projects_select_policy roles uid row = true.
Proof.
  unfold projects_update_policy, projects_select_policy.
  rewrite <- orb_assoc. intros ->. apply orb_true_r.
Qed.

Lemma update_projects_as_outsider roles uid now set id (ps : gmap N Project.t) row :
  ps !! id = Some row →
  projects_update_policy roles uid row = false →
  update_projects_as roles uid now set id ps = Ok ps.
Proof.
  intros Hrow Hp. unfold update_projects_as. rewrite Hrow, Hp. by rewrite andb_false_r.
Qed.

(** X13.  Approval stamps start_date with the time of the click, and
    valid_date_range wants end_date after start_date: approving a project
    whose end_date is not in the future fails with a check violation, which
    handleApprove only logs; the project stays as it was, pending. *)
Theorem approval_after_the_deadline_fails roles uid client_now now projectId
    (ps : gmap N Project.t) row e :
  ps !! projectId = Some row →
  projects_update_policy roles uid row = true →
  Project.end_date row = Some e →
  e <= client_now →
  handleApprove roles uid client_now now projectId ps = (ps, Some check_violation).
Proof.
  intros Hrow Hp He Hlate. unfold handleApprove, update_projects_as.
  rewrite Hrow, Hp, (update_policy_select _ _ _ Hp). simpl.
  change (projects_update_policy roles uid (update_updated_at_column now
            (approved client_now row))) with (projects_update_policy roles uid row).
  rewrite Hp. simpl.
  replace (projects_check _) with false; [done|].
  symmetry. unfold projects_check, valid_date_range. simpl. rewrite He.
  rewrite (proj2 (Z.ltb_ge client_now e)) by done. apply andb_false_r.
Qed.

Lemma approval_after_the_deadline_fails_witness :
  let row := Project.mk 1%N "t" "d" 5000 (Some 0) (Some pending_review) None "l" None
               (Some 100) None (Some 0) (Some 0) in
  handleApprove {[ 5%N := admin ]} 5%N 100 101 7%N {[ 7%N := row ]}
    = ({[ 7%N := row ]}, Some check_violation).
Proof.
  intros row.
  apply (approval_after_the_deadline_fails {[ 5%N := admin ]} 5%N 100 101 7%N
           {[ 7%N := row ]} row 100); reflexivity.
Defined.

(** X14.  Approval by the project's creator or by an admin (the policy lets
    both update the row) of a project that satisfies its constraints and
    whose end_date, if any, is in the future succeeds whatever the status
    was: the row gets status active, start_date and updated_at, and keeps
    every other column, raised_amount included. *)
Theorem approval_succeeds roles uid client_now now projectId
    (ps : gmap N Project.t) row :
  ps !! projectId = Some row →
  projects_update_policy roles uid row = true →
  projects_check row = true →
  (∀ e, Project.end_date row = Some e → client_now < e) →
  ∃ row',
    handleApprove roles uid client_now now projectId ps
      = (<[projectId := row']> ps, None)
    ∧ Project.status row' = Some active
    ∧ Project.start_date row' = Some client_now
    ∧ Project.updated_at row' = Some now
    ∧ Project.raised_amount row' = Project.raised_amount row
    ∧ Project.goal_amount row' = Project.goal_amount row
    ∧ Project.creator_id row' = Project.creator_id row
    ∧ Project.end_date row' = Project.end_date row.
Proof.
  intros Hrow Hp Hc Hend.
  exists (update_updated_at_column now (approved client_now row)).
  split; [|by repeat split].
  unfold handleApprove, update_projects_as.
  rewrite Hrow, Hp, (update_policy_select _ _ _ Hp). simpl.
  change (projects_update_policy roles uid (update_updated_at_column now
            (approved client_now row))) with (projects_update_policy roles uid row).
  rewrite Hp. simpl.
  replace (projects_check _) with true; [done|].
  symmetry. revert Hc. unfold projects_check, valid_date_range. simpl.
  rewrite !andb_true_iff. intros [[Hg Hr] _]. repeat split; try done.
  destruct (Project.end_date row) as [e|]; [|done].
  apply Z.ltb_lt. by apply Hend.
Qed.

Lemma approval_succeeds_witness :
  let row := sample_project fully_funded 60 50 in
  ∃ row',
    handleApprove ∅ 1%N 100 101 7%N {[ 7%N := row ]}
      = (<[ 7%N := row' ]> {[ 7%N := row ]}, None)
    ∧ Project.status row' = Some active
    ∧ Project.start_date row' = Some 100
    ∧ Project.updated_at row' = Some 101
    ∧ Project.raised_amount row' = Project.raised_amount row
    ∧ Project.goal_amount row' = Project.goal_amount row
    ∧ Project.creator_id row' = Project.creator_id row
    ∧ Project.end_date row' = Project.end_date row.
Proof.
  intros row.
  apply (approval_succeeds ∅ 1%N 100 101 7%N {[ 7%N := row ]} row); try reflexivity.
  intros e He. discriminate He.
Defined.

(** X15.  For a signed-in user who is neither the creator of the project nor
    an admin, the policy matches no row: handleApprove and handleReject
    change nothing and catch no error. *)
Theorem outsider_changes_nothing roles uid client_now now projectId
    (ps : gmap N Project.t) row :
  ps !! projectId = Some row →
  Project.creator_id row ≠ uid →
  roles !! uid ≠ Some admin →
  handleApprove roles uid client_now now projectId ps = (ps, None)
  ∧ handleReject roles uid now projectId ps = (ps, None).
Proof.
  intros Hrow Hc Ha.
  assert (Hp : projects_update_policy roles uid row = false).
  { unfold projects_update_policy, is_admin.
    by rewrite !bool_decide_eq_false_2 by done. }
  unfold handleApprove, handleReject.
  by rewrite !(update_projects_as_outsider _ _ _ _ _ _ row) by done.
Qed.

Lemma outsider_changes_nothing_witness :
  handleApprove {[ 9%N := donor ]} 9%N 100 101 7%N
      {[ 7%N := sample_project pending_review 0 50 ]}
    = ({[ 7%N := sample_project pending_review 0 50 ]}, None)
  ∧ handleReject {[ 9%N := donor ]} 9%N 101 7%N
      {[ 7%N := sample_project pending_review 0 50 ]}
    = ({[ 7%N := sample_project pending_review 0 50 ]}, None).
Proof.
  apply (outsider_changes_nothing {[ 9%N := donor ]} 9%N 100 101 7%N
           {[ 7%N := sample_project pending_review 0 50 ]}
           (sample_project pending_review 0 50)).
  - reflexivity.
  - discriminate.
  - vm_compute. discriminate.
Defined.

(** X16.  Rejection by the creator or an admin of a project that satisfies
    its constraints always succeeds: the row gets status cancelled and
    updated_at and keeps raised_amount, and from then on it fails the SELECT
    policy for every user who is neither its creator nor an admin. *)
Theorem rejection_hides_the_project roles uid now projectId
    (ps : gmap N Project.t) row :
  ps !! projectId = Some row →
  projects_update_policy roles uid row = true →
  projects_check row = true →
  ∃ row',
    handleReject roles uid now projectId ps = (<[projectId := row']> ps, None)
    ∧ Project.status row' = Some cancelled
    ∧ Project.raised_amount row' = Project.raised_amount row
    ∧ ∀ uid', Project.creator_id row ≠ uid' → roles !! uid' ≠ Some admin →
        projects_select_policy roles uid' row' = false.
Proof.
  intros Hrow Hp Hc. exists (update_updated_at_column now (rejected row)).
  split; [|split; [done|split; [done|]]].
  - unfold handleReject, update_projects_as.
    rewrite Hrow, Hp, (update_policy_select _ _ _ Hp). simpl.
    change (projects_update_policy roles uid (update_updated_at_column now
              (rejected row))) with (projects_update_policy roles uid row).
    rewrite Hp. simpl.
    change (projects_check (update_updated_at_column now (rejected row)))
      with (projects_check row). by rewrite Hc.
  - intros uid' Hc' Ha'. unfold projects_select_policy, is_admin. simpl.
    by rewrite !bool_decide_eq_false_2 by done.
Qed.

Lemma rejection_hides_the_project_witness :
  let row := sample_project pending_review 0 50 in
  ∃ row',
    handleReject {[ 5%N := admin ]} 5%N 101 7%N {[ 7%N := row ]}
      = (<[ 7%N := row' ]> {[ 7%N := row ]}, None)
    ∧ Project.status row' = Some cancelled
    ∧ Project.raised_amount row' = Project.raised_amount row
    ∧ ∀ uid', Project.creator_id row ≠ uid' →
        ({[ 5%N := admin ]} : gmap N user_role) !! uid' ≠ Some admin →
        projects_select_policy {[ 5%N := admin ]} uid' row' = false.
Proof.
  intros row.
  apply (rejection_hides_the_project {[ 5%N := admin ]} 5%N 101 7%N {[ 7%N := row ]} row);
    reflexivity.
Defined.

(** X17.  Funding makes a project public: when the trigger fires and the
    new total reaches goal_amount, the row it writes passes the SELECT
    policy of projects for every signed-in user, whatever the status was
    before, be it draft, pending_review or cancelled. *)
Theorem funding_makes_the_project_public now OLD NEW (ps ps' : gmap N Project.t)
    ret row r :
  fires OLD NEW = true →
  ps !! Donation.project_id NEW = Some row →
  Project.raised_amount row = Some r →
  Project.goal_amount row <= r + Donation.amount NEW →
  update_project_raised_amount now OLD NEW ps = Ok (ps', ret) →
  ∃ row', ps' !! Donation.project_id NEW = Some row'
          ∧ ∀ roles uid, projects_select_policy roles uid row' = true.
Proof.
  intros Hf Hrow Hr Hg Ht. apply (trigger_fired _ _ _ _ _ _ row Hf Hrow) in Ht. subst ps'.
  eexists. split; [apply lookup_insert_eq|].
  intros roles uid. unfold projects_select_policy. simpl. rewrite Hr. simpl.
  by rewrite (proj2 (Z.leb_le _ _) Hg).
Qed.

Lemma funding_makes_the_project_public_witness :
  let ps : gmap N Project.t := {[ 7%N := sample_project cancelled 20 50 ]} in
  let NEW := sample_donation d_completed 40 in
  projects_select_policy ∅ 9%N (sample_project cancelled 20 50) = false
  ∧ ∃ row',
      (<[ 7%N := update_updated_at_column 1 (credit 4000 1 (sample_project cancelled 20 50)) ]>
         ps) !! Donation.project_id NEW = Some row'
      ∧ ∀ roles uid, projects_select_policy roles uid row' = true.
Proof.
  intros ps NEW. split; [reflexivity|].
  apply (funding_makes_the_project_public 1 (sample_donation d_pending 40) NEW ps _
           NEW (sample_project cancelled 20 50) 2000); try reflexivity.
  vm_compute. discriminate.
Defined.

(** ** Deletions *)

Lemma completed_total_filter k (P : N * Donation.t → Prop) `{!∀ x, Decision (P x)}
    (rows : gmap N Donation.t) :
  (∀ i d, rows !! i = Some d → ¬ P (i, d) → counted k d = 0) →
  completed_total k (filter P rows) = completed_total k rows.
Proof.
  induction rows as [|i x m Hi IH] using map_ind; intros Hout.
  - by rewrite map_filter_empty.
  - assert (IH' : completed_total k (filter P m) = completed_total k m).
    { apply IH. intros j d Hj. apply Hout. rewrite lookup_insert_ne; [done|]. congruence. }
    rewrite completed_total_new by done. rewrite map_filter_insert. case_decide.
    + rewrite completed_total_new; [lia|]. apply map_lookup_filter_None. by left.
    + rewrite delete_id by done. rewrite (Hout i x); [lia|apply lookup_insert_eq|done].
Qed.

Lemma completed_total_fmap k (f : Donation.t → Donation.t) (rows : gmap N Donation.t) :
  (∀ d, counted k (f d) = counted k d) →
  completed_total k (f <$> rows) = completed_total k rows.
Proof.
  intros Hf. induction rows as [|i x m Hi IH] using map_ind.
  - by rewrite fmap_empty.
  - rewrite fmap_insert, !completed_total_new, Hf, IH; [done|done|].
    by rewrite lookup_fmap, Hi.
Qed.

Lemma counted_set_null_donor k u d : counted k (set_null_donor u d) = counted k d.
Proof. unfold set_null_donor. by case_bool_decide. Qed.

(** X18.  Deleting a project removes that project and exactly the donations
    that refer to it: the project's row is gone, every donation to it is
    gone, every other donation, whatever its status, and every other project
    are kept as they were, the profiles are untouched, the completed total of
    every other project is unchanged and the constraints of the schema still
    hold.  For a key that names no project nothing is deleted. *)
Theorem project_deletion_cascades :
  (∀ id db, projects db !! id = None → delete_project id db = db)
  ∧ (∀ id db row,
       wf db →
       projects db !! id = Some row →
       wf (delete_project id db)
       ∧ profiles (delete_project id db) = profiles db
       ∧ projects (delete_project id db) !! id = None
       ∧ (∀ k, k ≠ id →
            projects (delete_project id db) !! k = projects db !! k
            ∧ completed_total k (donations (delete_project id db))
              = completed_total k (donations db))
       ∧ (∀ i d, donations db !! i = Some d →
            donations (delete_project id db) !! i
              = if decide (Donation.project_id d = id) then None else Some d)
       ∧ (∀ i, donations db !! i = None →
            donations (delete_project id db) !! i = None)).
Proof.
  split.
  - intros id db Hnone. unfold delete_project. by rewrite Hnone.
  - intros id db row W Hrow. unfold delete_project. rewrite Hrow.
    assert (Hkept : ∀ k d,
       filter (fun kd : N * Donation.t => Donation.project_id (kd.2) ≠ id)
         (donations db) !! k = Some d →
       donations db !! k = Some d
       ∧ is_Some (delete id (projects db) !! Donation.project_id d)).
    { intros k d [Hd Hne]%map_lookup_filter_Some. simpl in Hne. split; [done|].
      rewrite lookup_delete_ne by done. by apply (wf_project_id db W k d). }
    split; [|split; [done|split; [apply lookup_delete_eq|split; [|split]]]].
    + split; simpl.
      * intros k d [Hd _]%Hkept. by apply (wf_amount db W k d).
      * intros k d Hd. by apply (Hkept k d).
      * intros k d u [Hd _]%Hkept. by apply (wf_donor_id db W k d).
      * intros i j d e s [Hd _]%Hkept [He _]%Hkept. by apply (wf_transaction_id db W).
      * intros k r [_ Hr]%lookup_delete_Some. by apply (wf_projects db W k r).
    + intros k Hk. simpl. split; [by apply lookup_delete_ne|].
      apply completed_total_filter. intros i d _ Hp. simpl in Hp.
      apply counted_other. intros <-. by apply Hp.
    + intros i d Hd. simpl. case_decide as Hp.
      * apply map_lookup_filter_None. right. intros d' Hd' Hne. simpl in Hne.
        rewrite Hd in Hd'. injection Hd' as <-. by apply Hne.
      * by apply map_lookup_filter_Some.
    + intros i Hnone. simpl. apply map_lookup_filter_None. by left.
Qed.

Lemma project_deletion_cascades_witness :
  let db := sample_db (sample_project active 60 100)
              {[ 3%N := sample_donation d_completed 60 ]} in
  projects (delete_project 7%N db) !! 7%N = None
  ∧ donations (delete_project 7%N db) !! 3%N = None.
Proof.
  intros db. destruct project_deletion_cascades as [_ H].
  destruct (H 7%N db (sample_project active 60 100)) as (_ & _ & Hgone & _ & Hd & _).
  - apply sample_db_wf; lia.
  - reflexivity.
  - split; [exact Hgone|]. exact (Hd 3%N (sample_donation d_completed 60) eq_refl).
Defined.

(** X19.  Deleting an account keeps the money records of other people's
    projects: after DELETE of a profile the constraints of the schema still
    hold; every project of another creator keeps its row, raised_amount
    included, and its completed total, the donations the deleted user made to
    it staying in place with donor_id NULL; and the UPDATE that sets donor_id
    to NULL never makes the ledger trigger fire. *)
Theorem account_deletion_keeps_the_ledger u db :
  wf db →
  wf (delete_profile u db)
  ∧ (∀ k row, projects db !! k = Some row → Project.creator_id row ≠ u →
       projects (delete_profile u db) !! k = Some row
       ∧ completed_total k (donations (delete_profile u db))
         = completed_total k (donations db))
  ∧ (∀ i d row, donations db !! i = Some d →
       projects db !! Donation.project_id d = Some row → Project.creator_id row ≠ u →
       donations (delete_profile u db) !! i = Some (set_null_donor u d))
  ∧ (∀ d, fires d (set_null_donor u d) = false).
Proof.
  intros W.
  assert (Hidle : ∀ d, fires d (set_null_donor u d) = false).
  { intros d. apply fires_same_status. unfold set_null_donor. by case_bool_decide. }
  unfold delete_profile. case_bool_decide as Hu.
  - assert (Hkept : ∀ i d',
        (set_null_donor u <$>
           filter (fun kd : N * Donation.t => survives u (projects db) (kd.2) = true)
             (donations db)) !! i = Some d' →
        ∃ d row, d' = set_null_donor u d ∧ donations db !! i = Some d
                 ∧ projects db !! Donation.project_id d = Some row
                 ∧ Project.creator_id row ≠ u).
    { intros i d' (d & <- & [Hd Hs]%map_lookup_filter_Some)%lookup_fmap_Some.
      simpl in Hs. destruct (wf_project_id db W i d Hd) as [row Hrow].
      exists d, row. repeat split; try done.
      unfold survives in Hs. rewrite Hrow in Hs. by apply bool_decide_eq_true in Hs. }
    assert (Hsame : ∀ d, Donation.amount (set_null_donor u d) = Donation.amount d
                        ∧ Donation.project_id (set_null_donor u d) = Donation.project_id d
                        ∧ Donation.transaction_id (set_null_donor u d)
                          = Donation.transaction_id d).
    { intros d. unfold set_null_donor. by case_bool_decide. }
    split; [|split; [|split; [|done]]].
    + split; simpl.
      * intros i d' (d & row & -> & Hd & _)%Hkept.
        destruct (Hsame d) as (-> & _). by apply (wf_amount db W i d).
      * intros i d' (d & row & -> & Hd & Hrow & Hc)%Hkept.
        destruct (Hsame d) as (_ & -> & _). exists row.
        by apply map_lookup_filter_Some.
      * intros i d' v (d & row & -> & Hd & _)%Hkept. unfold set_null_donor.
        case_bool_decide as Hv; [done|]. intros Hdv.
        apply elem_of_difference. split; [by apply (wf_donor_id db W i d)|].
        intros ->%elem_of_singleton. by apply Hv.
      * intros i j d1' d2' s (d1 & ? & -> & Hd1 & _)%Hkept (d2 & ? & -> & Hd2 & _)%Hkept.
        destruct (Hsame d1) as (_ & _ & ->). destruct (Hsame d2) as (_ & _ & ->).
        by apply (wf_transaction_id db W).
      * intros k r [Hr _]%map_lookup_filter_Some. by apply (wf_projects db W k r).
    + intros k row Hrow Hc. simpl. split; [by apply map_lookup_filter_Some|].
      rewrite completed_total_fmap by apply counted_set_null_donor.
      apply completed_total_filter. intros i d Hd Hs. simpl in Hs.
      apply counted_other. intros Hk. apply Hs. unfold survives.
      rewrite Hk, Hrow. by apply bool_decide_eq_true.
    + intros i d row Hd Hrow Hc. simpl. apply lookup_fmap_Some. exists d.
      split; [done|]. apply map_lookup_filter_Some. split; [done|]. simpl.
      unfold survives. rewrite Hrow. by apply bool_decide_eq_true.
  - split; [done|]. split; [|split; [|done]].
    + by intros k row Hrow _.
    + intros i d row Hd Hrow _. rewrite Hd. f_equal. unfold set_null_donor.
      rewrite bool_decide_eq_false_2; [done|]. intros Hdu. apply Hu.
      by apply (wf_donor_id db W i d).
Qed.

Lemma account_deletion_keeps_the_ledger_witness :
  let db := sample_db (sample_project active 60 100)
              {[ 3%N := sample_donation d_completed 60 ]} in
  donations (delete_profile 2%N db) !! 3%N
    = Some (set_null_donor 2%N (sample_donation d_completed 60)).
Proof.
  intros db.
  destruct (account_deletion_keeps_the_ledger 2%N db) as (_ & _ & H & _).
  { apply sample_db_wf; lia. }
  apply (H 3%N (sample_donation d_completed 60) (sample_project active 60 100));
    [reflexivity|reflexivity|discriminate].
Defined.
